(** * COMPAS: scene-object registry, shape objects, bounding boxes and colors

    A shallow embedding of the parts of the COMPAS sources that the
    specification talks about:

    - [compas/scene/object.py]            (module [Registry], module [SceneObject])
    - [compas_rhino/objects/_shapeobject.py] (module [ShapeObject])
    - [compas/geometry/bbox/bbox.py]      (module [BBox])
    - [compas/colors/color.py]            (module [Color])

    Module [Instances] runs the models at concrete parameters.

    Python exceptions are modelled by the type [exn]; a call that may raise
    returns a [result].  Methods that mutate [self] or a shared object take
    the state before the call and return the state after it, also when they
    raise: Python does not roll back the assignments made before a [raise]. *)

From stdpp Require Import gmap strings list fin_maps.

(** ** Exceptions and results *)

Inductive exn : Type :=
| KeyError
| TypeError
| AttributeError
| ValueError
| ZeroDivisionError.

Inductive result (A : Type) : Type :=
| Ok (a : A)
| Raise (e : exn).

Arguments Ok {A} a.
Arguments Raise {A} e.

(** Sequencing: an exception ends the computation. *)
#[global] Instance result_bind : MBind result :=
  fun _ _ k r =>
    match r with
    | Ok x => k x
    | Raise e => Raise e
    end.

#[global] Instance result_ret : MRet result := fun _ x => Ok x.

(** ** The item-type registry of [BaseObject]

    [_ITEM_OBJECT = {}] is a module-level dict from item types to object
    types.  An object type is a Python class, that is, a callable taking the
    item and keyword arguments; calling it runs arbitrary constructor code, so
    it is modelled as a function on an abstract world state [World] that
    returns either the new instance or the exception the constructor raised. *)

Module Registry.
Section registry.

Context {ItemType : Type} `{Countable ItemType}.
Context {Item Kwargs World Instance : Type}.

(** [type(item)]: the exact runtime type of an item. *)
Variable type_of : Item -> ItemType.

Abbreviation object_type :=
  (Item -> Kwargs -> World -> result Instance * World).

(** [BaseObject.register(item_type, object_type)]:
    [_ITEM_OBJECT[item_type] = object_type]. *)
Definition register (item_type : ItemType) (ot : object_type)
    (reg : gmap ItemType object_type) : gmap ItemType object_type :=
  <[item_type := ot]> reg.


(** [BaseObject.build(item, **kwargs)]:
    [object_type = _ITEM_OBJECT[type(item)]] raises [KeyError] for a missing
    key, before anything else runs; otherwise the result is
    [object_type(item, **kwargs)]. *)
Definition build (reg : gmap ItemType object_type) (item : Item)
    (kwargs : Kwargs) (w : World) : result Instance * World :=
  match reg !! type_of item with
  | None => (Raise KeyError, w)
  | Some ot => ot item kwargs w
  end.


Lemma build_registered reg item kwargs w ot :
  reg !! type_of item = Some ot ->
  build reg item kwargs w = ot item kwargs w.
Proof. intros Hreg. unfold build. rewrite Hreg. reflexivity. Qed.

Lemma build_unregistered reg item kwargs w :
  reg !! type_of item = None ->
  build reg item kwargs w = (Raise KeyError, w).
Proof. intros Hreg. unfold build. rewrite Hreg. reflexivity. Qed.


(** C3: [build(item)] succeeds exactly when [type(item)] itself is a key of
    the registry and the handler registered for it, called with the item and
    the keyword arguments, returns an object: for a registered type [build]
    is that call, with the exception it may raise.  When [type(item)] is no
    key, [build] raises [KeyError] and runs no handler at all, and this is
    so also when [type(item)] is a subclass of a registered item type: the
    handler of the parent type is not used. *)
Theorem build_succeeds_iff_handler_does
    (issubclass : ItemType -> ItemType -> Prop) reg item kwargs w :
  ((exists obj w', build reg item kwargs w = (Ok obj, w'))
     <-> exists ot,
           reg !! type_of item = Some ot
           /\ exists obj w', ot item kwargs w = (Ok obj, w'))
  /\ (forall ot, reg !! type_of item = Some ot ->
      build reg item kwargs w = ot item kwargs w)
  /\ (reg !! type_of item = None ->
      build reg item kwargs w = (Raise KeyError, w))
  /\ (forall T ot,
        issubclass (type_of item) T -> T <> type_of item ->
        reg !! T = Some ot -> reg !! type_of item = None ->
        build reg item kwargs w = (Raise KeyError, w)).
Proof.
  split; [split|split; [|split]].
  - intros (obj & w' & Hb). unfold build in Hb.
    destruct (reg !! type_of item) as [ot|] eqn:E; [|discriminate].
    exists ot. eauto.
  - intros (ot & Hot & obj & w' & Hcall).
    rewrite (build_registered _ _ _ _ _ Hot). eauto.
  - intros ot Hot. apply build_registered. exact Hot.
  - apply build_unregistered.
  - intros T ot _ _ _. apply build_unregistered.
Qed.

(** *** More on the registry *)

(** [BaseObject.registered_object_types()]: the object type of every key of
    the dict.  The map of the model does not keep the insertion order of the
    dict, so the list is the one Python returns up to its order. *)
Definition registered_object_types (reg : gmap ItemType object_type)
    : list object_type :=
  (map_to_list reg).*2.

(** X1: registering a handler for one item type changes nothing for the
    items of every other type: [build] gives them what it gave before. *)
Theorem register_keeps_other_types reg T (O : object_type) item kwargs w :
  type_of item <> T ->
  build (register T O reg) item kwargs w = build reg item kwargs w.
Proof.
  intros Hne. unfold build, register.
  rewrite lookup_insert_ne by congruence. reflexivity.
Qed.

(** X2: the registered object types are exactly the handlers that some item
    type maps to, one entry per registered item type: registering a new item
    type adds an entry, registering a known one replaces its entry. *)
Theorem registered_object_types_entries reg T (O : object_type) :
  (forall O', O' ∈ registered_object_types reg
              <-> exists T', reg !! T' = Some O')
  /\ O ∈ registered_object_types (register T O reg)
  /\ length (registered_object_types (register T O reg))
     = match reg !! T with
       | Some _ => length (registered_object_types reg)
       | None => S (length (registered_object_types reg))
       end.
Proof.
  assert (Hin : forall (m : gmap ItemType object_type) O',
            O' ∈ (map_to_list m).*2 <-> exists T', m !! T' = Some O').
  { intros m O'. rewrite list_elem_of_fmap. split.
    - intros ([T' O''] & -> & Hel). exists T'.
      apply elem_of_map_to_list. exact Hel.
    - intros [T' HT']. exists (T', O'). split; [reflexivity|].
      apply elem_of_map_to_list. exact HT'. }
  unfold registered_object_types, register. split; [|split].
  - intros O'. apply Hin.
  - apply Hin. exists T. apply lookup_insert_eq.
  - rewrite !length_fmap, !length_map_to_list, map_size_insert.
    destruct (reg !! T); reflexivity.
Qed.

End registry.
End Registry.

(** ** Scene objects: [BaseObject]

    Python values are modelled as far as [BaseObject] looks at them: [None],
    booleans, strings, and references to objects.  A reference carries the
    class of the object it points to (an object keeps its class) and the
    location of the object in the store, so two references to one object
    alias.  The class of the wrapped items ([compas.base.Base]) is not part of
    these sources: its [name] property is a parameter of the model. *)

Module SceneObject.

Abbreviation loc := positive.

Inductive value : Type :=
| VNone
| VBool (b : bool)
| VStr (s : string)
| VObj (cls : string) (l : loc).

(** [type(v)], by the name of the class. *)
Definition type_of (v : value) : string :=
  match v with
  | VNone => "NoneType"
  | VBool _ => "bool"
  | VStr _ => "str"
  | VObj cls _ => cls
  end.

(** The instance attributes of a [BaseObject]. *)
Record BaseObject : Type := mkBaseObject {
  _item : value;
  _uuid : value;
  _scene : value;
  _artist : value;
  visible : value
}.

Section base_object.

Context {ItemObj : Type}.

(** [item.name] and [item.name = n] on an object of the store; the setter
    returns the object as it leaves it, also when it raises. *)
Variable item_get_name : ItemObj -> result value.
Variable item_set_name : value -> ItemObj -> result unit * ItemObj.

(** [v.name]: [None], booleans and strings have no such attribute. *)
Definition getattr_name (v : value) (st : gmap loc ItemObj) : result value :=
  match v with
  | VObj _ l =>
      match st !! l with
      | Some it => item_get_name it
      | None => Raise AttributeError
      end
  | _ => Raise AttributeError
  end.

(** [v.name = n] *)
Definition setattr_name (v n : value) (st : gmap loc ItemObj)
    : result unit * gmap loc ItemObj :=
  match v with
  | VObj _ l =>
      match st !! l with
      | Some it =>
          let '(r, it') := item_set_name n it in (r, <[l := it']> st)
      | None => (Raise AttributeError, st)
      end
  | _ => (Raise AttributeError, st)
  end.

(** The [scene] and [item] properties. *)
Definition scene (self : BaseObject) : value := _scene self.

Definition set_scene (self : BaseObject) (sc : value) : BaseObject :=
  mkBaseObject (_item self) (_uuid self) sc (_artist self) (visible self).

Definition item (self : BaseObject) : value := _item self.

Definition set_item (self : BaseObject) (it : value) : BaseObject :=
  mkBaseObject it (_uuid self) (_scene self) (_artist self) (visible self).

(** The [name] property: [return self.item.name]. *)
Definition name (self : BaseObject) (st : gmap loc ItemObj) : result value :=
  getattr_name (item self) st.

(** The [name] setter: [self.item.name = name].  The result is the outcome,
    the object [self] after the call and the store after the call. *)
Definition set_name (self : BaseObject) (n : value) (st : gmap loc ItemObj)
    : result unit * BaseObject * gmap loc ItemObj :=
  let '(r, st') := setattr_name (item self) n st in (r, self, st').

(** [BaseObject.__init__(self, item, scene=None, name=None, visible=True)].
    An object whose constructor raises is never returned. *)
Definition init (it sc n vis : value) (st : gmap loc ItemObj)
    : result BaseObject * gmap loc ItemObj :=
  let self := mkBaseObject VNone VNone VNone VNone VNone in
  let self := set_scene self sc in
  let self := set_item self it in
  let '(r, self, st') := set_name self n st in
  match r with
  | Raise e => (Raise e, st')
  | Ok _ =>
      (Ok (mkBaseObject (_item self) (_uuid self) (_scene self)
             (_artist self) vis), st')
  end.

(** The keyword parameters of [__init__]. *)
Definition init_keywords : list string := ["scene"; "name"; "visible"].

(** The call [BaseObject(item, **kwargs)]: a keyword that is not a parameter
    of [__init__] is a [TypeError]; a parameter not given takes its default. *)
Definition new (it : value) (kwargs : gmap string value)
    (st : gmap loc ItemObj) : result BaseObject * gmap loc ItemObj :=
  if forallb (fun k => bool_decide (k ∈ init_keywords))
       (map fst (map_to_list kwargs))
  then init it
         (default VNone (kwargs !! "scene"))
         (default VNone (kwargs !! "name"))
         (default (VBool true) (kwargs !! "visible")) st
  else (Raise TypeError, st).

(** An object that [BaseObject(item, **kwargs)] returns wraps [item], in the
    given scene and with the given visibility. *)
Lemma new_wraps_item it kwargs st obj st' :
  new it kwargs st = (Ok obj, st') ->
  _item obj = it
  /\ _scene obj = default VNone (kwargs !! "scene")
  /\ visible obj = default (VBool true) (kwargs !! "visible").
Proof.
  unfold new, init, set_name.
  destruct (forallb _ _); [|discriminate].
  destruct (setattr_name _ _ st) as [[[]|e] st1]; [|discriminate].
  intros [= <- <-]. simpl. auto.
Qed.

(** C7: the [name] of a scene object is the name of its wrapped item.
    Reading it is reading [item.name]; setting it runs the item's own [name]
    setter on the wrapped object in the store, and changes neither the scene
    object (its item reference, visibility, scene, uuid and artist are what
    they were) nor any other object of the store; the name read through the
    scene object afterwards is the name of the item as the setter left it. *)
Theorem name_is_alias_of_item_name (self : BaseObject) (n : value)
    (st : gmap loc ItemObj) cls l it :
  _item self = VObj cls l ->
  st !! l = Some it ->
  name self st = item_get_name it
  /\ (let '(r, self', st') := set_name self n st in
      self' = self
      /\ r = (item_set_name n it).1
      /\ st' !! l = Some (item_set_name n it).2
      /\ (forall l', l' <> l -> st' !! l' = st !! l')
      /\ name self' st' = item_get_name (item_set_name n it).2).
Proof.
  intros Hit Hst. split.
  - unfold name, item, getattr_name. rewrite Hit, Hst. reflexivity.
  - unfold set_name, name, item, setattr_name, getattr_name.
    rewrite Hit, Hst.
    destruct (item_set_name n it) as [r it'] eqn:E. simpl.
    rewrite Hit. rewrite lookup_insert_eq.
    repeat split; try reflexivity.
    intros l' Hne. apply lookup_insert_ne. congruence.
Qed.

(** *** More on scene objects *)

(** The truth value of a Python value: [None], [False] and the empty string
    are false. *)
Definition truthy (v : value) : bool :=
  match v with
  | VNone => false
  | VBool b => b
  | VStr s => negb (String.eqb s "")
  | VObj _ _ => true
  end.

(** The [uuid] property: [if not self._uuid: self._uuid = str(uuid4())], then
    [return self._uuid].  [fresh] is the string that [str(uuid4())] would
    give at this call. *)
Definition uuid (self : BaseObject) (fresh : string) : value * BaseObject :=
  if truthy (_uuid self) then (_uuid self, self)
  else
    let self :=
      mkBaseObject (_item self) (VStr fresh) (_scene self) (_artist self)
        (visible self) in
    (_uuid self, self).

(** X3: the uuid of a scene object is generated at the first read and kept:
    a second read gives the same uuid, whatever [uuid4] would give then, and
    reading the uuid changes no other attribute. *)
Theorem uuid_generated_once (self : BaseObject) (fresh1 fresh2 : string) :
  fresh1 <> "" ->
  let '(u1, self1) := uuid self fresh1 in
  uuid self1 fresh2 = (u1, self1)
  /\ truthy u1 = true
  /\ _item self1 = _item self
  /\ _scene self1 = _scene self
  /\ _artist self1 = _artist self
  /\ visible self1 = visible self.
Proof.
  intros Hfresh. unfold uuid.
  destruct (truthy (_uuid self)) eqn:Et.
  - rewrite Et. repeat split.
  - assert (Ht : truthy (VStr fresh1) = true).
    { simpl. destruct (String.eqb_spec fresh1 ""); [contradiction|reflexivity]. }
    cbn [_uuid]. rewrite Ht. repeat split.
Qed.

(** X4: scene objects that wrap the same item share its name: after one of
    them has set the name, the other reads the name that was set. *)
Theorem name_shared_between_wrappers (o1 o2 : BaseObject) (n : value)
    (st : gmap loc ItemObj) cls l it :
  _item o1 = VObj cls l ->
  _item o2 = VObj cls l ->
  st !! l = Some it ->
  let '(_, o1', st') := set_name o1 n st in
  name o2 st' = name o1' st'
  /\ name o2 st' = item_get_name (item_set_name n it).2.
Proof.
  intros H1 H2 Hst.
  unfold set_name, name, item, setattr_name, getattr_name.
  rewrite H1, Hst. destruct (item_set_name n it) as [r it'] eqn:E. simpl.
  rewrite H1, H2, lookup_insert_eq. auto.
Qed.

Lemma init_object_item cls l it sc n vis (st : gmap loc ItemObj) :
  st !! l = Some it ->
  init (VObj cls l) sc n vis st =
    (match (item_set_name n it).1 with
     | Ok _ => Ok (mkBaseObject (VObj cls l) VNone sc VNone vis)
     | Raise e => Raise e
     end,
     <[l := (item_set_name n it).2]> st).
Proof.
  intros Hst. unfold init, set_name, item, set_item, set_scene, setattr_name.
  simpl. rewrite Hst. destruct (item_set_name n it) as [[[]|e] it']; reflexivity.
Qed.

(** X5: constructing a scene object assigns the name of the item it wraps:
    [BaseObject(item, name=n)] runs the item's name setter with [n], and
    without a [name] argument with [None]; the name the item had is
    overwritten either way.  The new object wraps the item and takes the
    scene and the visibility given ([None] and [True] by default). *)
Theorem new_assigns_item_name cls l it (kwargs : gmap string value)
    (st : gmap loc ItemObj) :
  st !! l = Some it ->
  map_Forall (fun k _ => k ∈ init_keywords) kwargs ->
  let n := default VNone (kwargs !! "name") in
  new (VObj cls l) kwargs st =
    (match (item_set_name n it).1 with
     | Ok _ =>
         Ok (mkBaseObject (VObj cls l) VNone
               (default VNone (kwargs !! "scene")) VNone
               (default (VBool true) (kwargs !! "visible")))
     | Raise e => Raise e
     end,
     <[l := (item_set_name n it).2]> st).
Proof.
  intros Hst Hkw. unfold new.
  assert (Hall : forallb (fun k => bool_decide (k ∈ init_keywords))
                   (map fst (map_to_list kwargs)) = true).
  { apply forallb_forall. intros k Hk.
    apply in_map_iff in Hk as ([k' v] & <- & Hkv).
    apply list_elem_of_In, elem_of_map_to_list in Hkv.
    apply bool_decide_eq_true. exact (Hkw _ _ Hkv). }
  rewrite Hall. apply init_object_item. exact Hst.
Qed.

(** X6: a scene object cannot be constructed around [None], a boolean or a
    string: assigning the name fails with [AttributeError], and the store is
    left as it was.  A keyword that [__init__] does not have is a
    [TypeError], whatever the item is, and again nothing is touched. *)
Theorem new_failures (it : value) (kwargs : gmap string value)
    (st : gmap loc ItemObj) :
  (forall cls l, it <> VObj cls l) ->
  (map_Forall (fun k _ => k ∈ init_keywords) kwargs ->
   new it kwargs st = (Raise AttributeError, st))
  /\ (forall k v, kwargs !! k = Some v -> k ∉ init_keywords ->
      forall it', new it' kwargs st = (Raise TypeError, st)).
Proof.
  intros Hit. split.
  - intros Hkw. unfold new.
    assert (Hall : forallb (fun k => bool_decide (k ∈ init_keywords))
                     (map fst (map_to_list kwargs)) = true).
    { apply forallb_forall. intros k Hk.
      apply in_map_iff in Hk as ([k' v] & <- & Hkv).
      apply list_elem_of_In, elem_of_map_to_list in Hkv.
      apply bool_decide_eq_true. exact (Hkw _ _ Hkv). }
    rewrite Hall. unfold init, set_name, item, set_item, setattr_name. simpl.
    destruct it as [| | |cls l]; try reflexivity.
    exfalso. exact (Hit cls l eq_refl).
  - intros k v Hk Hbad it'. unfold new.
    assert (Hall : forallb (fun k => bool_decide (k ∈ init_keywords))
                     (map fst (map_to_list kwargs)) = false).
    { apply not_true_is_false. intros Hall.
      rewrite forallb_forall in Hall.
      assert (Hin : In k (map fst (map_to_list kwargs))).
      { apply in_map_iff. exists (k, v). split; [reflexivity|].
        apply list_elem_of_In, elem_of_map_to_list. exact Hk. }
      apply Hall, bool_decide_eq_true in Hin. contradiction. }
    rewrite Hall. reflexivity.
Qed.

End base_object.

(** Items with a plain [name] attribute. *)
Record named_item : Type := mkNamedItem { item_name : value }.

Definition plain_get_name (it : named_item) : result value :=
  Ok (item_name it).

Definition plain_set_name (n : value) (it : named_item)
    : result unit * named_item :=
  (Ok tt, mkNamedItem n).

End SceneObject.

(** ** Shape objects in Rhino: [ShapeObject]

    What belongs to Rhino or to other COMPAS modules is a parameter: the
    transformation type [Rhino.Geometry.Transform] with [Transform.Multiply]
    and its entries [T[i, j]], the COMPAS [Transformation] with its entry
    assignment, [xform_from_transformation], the shape with its [transform]
    method, the Rhino document (a table of geometries by guid) and the
    artist's [draw]. *)

Module ShapeObject.

(** [self._stack] is a [collections.deque] after [__init__] and whatever is
    assigned to it later; the two containers that occur are told apart. *)
Inductive container (T : Type) : Type :=
| Deque (items : list T)
| PyList (items : list T).

Arguments Deque {T} items.
Arguments PyList {T} items.

Definition items {T} (c : container T) : list T :=
  match c with Deque l => l | PyList l => l end.

(** [c.appendleft(x)]: a method of [deque]; a [list] has no such attribute. *)
Definition appendleft {T} (x : T) (c : container T) : result (container T) :=
  match c with
  | Deque l => Ok (Deque (x :: l))
  | PyList _ => Raise AttributeError
  end.

(** [functools.reduce(f, c)] without initial value: a left fold from the
    front, and a [TypeError] on an empty sequence. *)
Definition reduce {T} (f : T -> T -> T) (c : container T) : result T :=
  match items c with
  | [] => Raise TypeError
  | x :: l => Ok (foldl f x l)
  end.

Section shape_object.

Context {Scalar Transform Transformation Shape Geometry Guid : Type}.
Context `{Countable Guid}.

Variable Multiply : Transform -> Transform -> Transform.
Variable Transform_getitem : Transform -> nat -> nat -> Scalar.
Variable Transformation_new : Transformation.
Variable Transformation_setitem :
  nat -> nat -> Scalar -> Transformation -> Transformation.
Variable xform_from_transformation : Transformation -> Transform.
Variable Shape_transform : Transformation -> Shape -> Shape.
Variable Geometry_Transform : Transform -> Geometry -> Geometry.
Variable artist_draw :
  Shape -> gmap Guid Geometry -> Guid * gmap Guid Geometry.

(** The attributes of a [ShapeObject] that its methods use. *)
Record ShapeObject : Type := mkShapeObject {
  _guid : option Guid;
  _matrix : option Transform;
  _stack : container Transform;
  visible : bool
}.

(** A shape object together with the shape it wraps and the Rhino document. *)
Record world : Type := mkWorld {
  self : ShapeObject;
  shape : Shape;
  doc : gmap Guid Geometry
}.

Definition with_guid (g : option Guid) (o : ShapeObject) : ShapeObject :=
  mkShapeObject g (_matrix o) (_stack o) (visible o).

Definition with_matrix (m : option Transform) (o : ShapeObject) : ShapeObject :=
  mkShapeObject (_guid o) m (_stack o) (visible o).

Definition with_stack (c : container Transform) (o : ShapeObject) : ShapeObject :=
  mkShapeObject (_guid o) (_matrix o) c (visible o).

Definition with_visible (v : bool) (o : ShapeObject) : ShapeObject :=
  mkShapeObject (_guid o) (_matrix o) (_stack o) v.

(** [ShapeObject.__init__]: no guid, no matrix, an empty deque. *)
Definition init (vis : bool) : ShapeObject :=
  mkShapeObject None None (Deque []) vis.

(** The [matrix] setter. *)
Definition set_matrix (t : Transformation) (w : world) : world :=
  mkWorld (with_matrix (Some (xform_from_transformation t)) (self w))
    (shape w) (doc w).

(** The [shape] setter: [self.item = shape].  (It also assigns [None] to an
    attribute [_guids], which no method reads.) *)
Definition set_shape (s : Shape) (w : world) : world :=
  mkWorld (self w) s (doc w).

(** [self.visible = v] *)
Definition set_visible (v : bool) (w : world) : world :=
  mkWorld (with_visible v (self w)) (shape w) (doc w).

(** [clear]: delete the Rhino object, if there is one. *)
Definition clear (w : world) : world :=
  match _guid (self w) with
  | Some g => mkWorld (with_guid None (self w)) (shape w) (delete g (doc w))
  | None => w
  end.

(** [draw]: clear, then let the artist draw if the object is visible. *)
Definition draw (w : world) : world :=
  let w := clear w in
  if visible (self w)
  then let '(g, d) := artist_draw (shape w) (doc w) in
       mkWorld (with_guid (Some g) (self w)) (shape w) d
  else w.

(** [sc.doc.Objects.Find(self._guid)]: [None] when there is no such object,
    and also, in this model, when the object has not been drawn and
    [self._guid] is [None]. *)
Definition Find (g : option Guid) (d : gmap Guid Geometry) : option Geometry :=
  match g with
  | Some g => d !! g
  | None => None
  end.

(** [update]: a matrix object is true, [None] is false.  The matrix is
    pushed before the Rhino object is looked up, so the push stays when the
    lookup finds nothing and [obj.Geometry] raises. *)
Definition update (w : world) : result unit * world :=
  match _matrix (self w) with
  | None => (Ok tt, w)
  | Some m =>
      match appendleft m (_stack (self w)) with
      | Raise e => (Raise e, w)
      | Ok stk =>
          let o := with_stack stk (self w) in
          match _guid o, Find (_guid o) (doc w) with
          | Some g, Some geo =>
              (Ok tt,
               mkWorld o (shape w) (<[g := Geometry_Transform m geo]> (doc w)))
          | _, _ => (Raise AttributeError, mkWorld o (shape w) (doc w))
          end
      end
  end.

(** The two loops of [synchronize]:
    [for i in range(4): for j in range(4): M[i, j] = T[i, j]]. *)
Definition copy_entries (T : Transform) : Transformation :=
  foldl (fun M i =>
           foldl (fun M j =>
                    Transformation_setitem i j (Transform_getitem T i j) M)
             M (seq 0 4))
    Transformation_new (seq 0 4).

(** [synchronize] *)
Definition synchronize (w : world) : result unit * world :=
  match reduce Multiply (_stack (self w)) with
  | Raise e => (Raise e, w)
  | Ok T =>
      let M := copy_entries T in
      (Ok tt,
       mkWorld (with_stack (PyList []) (self w))
         (Shape_transform M (shape w)) (doc w))
  end.

(** The calls a client can make on a shape object. *)
Inductive call : Type :=
| CSetMatrix (t : Transformation)
| CSetShape (s : Shape)
| CSetVisible (v : bool)
| CClear
| CDraw
| CUpdate
| CSynchronize.

Definition step (c : call) (w : world) : result unit * world :=
  match c with
  | CSetMatrix t => (Ok tt, set_matrix t w)
  | CSetShape s => (Ok tt, set_shape s w)
  | CSetVisible v => (Ok tt, set_visible v w)
  | CClear => (Ok tt, clear w)
  | CDraw => (Ok tt, draw w)
  | CUpdate => update w
  | CSynchronize => synchronize w
  end.

(** A sequence of calls, left to right, stopped by the first exception. *)
Fixpoint run (cs : list call) (w : world) : result unit * world :=
  match cs with
  | [] => (Ok tt, w)
  | c :: cs =>
      match step c w with
      | (Ok _, w') => run cs w'
      | (Raise e, w') => (Raise e, w')
      end
  end.

(** The worlds a client can bring about: a freshly constructed object, and
    then any calls; a call that raised leaves the world it had reached. *)
Inductive reachable : world -> Prop :=
| reachable_init vis s d : reachable (mkWorld (init vis) s d)
| reachable_step c w : reachable w -> reachable (step c w).2.

(** The world after a sequence of calls made by a client that catches the
    exceptions and goes on. *)
Definition after (cs : list call) (w : world) : world :=
  foldl (fun w c => (step c w).2) w cs.

(** *** The first batch: what [update] and [synchronize] do on a deque *)

Lemma update_no_matrix w :
  _matrix (self w) = None -> update w = (Ok tt, w).
Proof. intros Hm. unfold update. rewrite Hm. reflexivity. Qed.

Lemma update_pushes_and_transforms w m l g geo :
  _matrix (self w) = Some m ->
  _stack (self w) = Deque l ->
  _guid (self w) = Some g ->
  doc w !! g = Some geo ->
  update w =
    (Ok tt,
     mkWorld (with_stack (Deque (m :: l)) (self w)) (shape w)
       (<[g := Geometry_Transform m geo]> (doc w))).
Proof.
  intros Hm Hs Hg Hd. unfold update. rewrite Hm, Hs. simpl.
  rewrite Hg. simpl. rewrite Hd. reflexivity.
Qed.

Lemma update_not_drawn w m l :
  _matrix (self w) = Some m ->
  _stack (self w) = Deque l ->
  Find (_guid (self w)) (doc w) = None ->
  update w =
    (Raise AttributeError,
     mkWorld (with_stack (Deque (m :: l)) (self w)) (shape w) (doc w)).
Proof.
  intros Hm Hs Hf. unfold update. rewrite Hm, Hs. simpl.
  destruct (_guid (self w)) as [g|]; simpl in *; [|reflexivity].
  rewrite Hf. reflexivity.
Qed.

Lemma update_on_list_raises w m l :
  _matrix (self w) = Some m ->
  _stack (self w) = PyList l ->
  update w = (Raise AttributeError, w).
Proof. intros Hm Hs. unfold update. rewrite Hm, Hs. reflexivity. Qed.

Lemma synchronize_empty w :
  items (_stack (self w)) = [] -> synchronize w = (Raise TypeError, w).
Proof. intros He. unfold synchronize, reduce. rewrite He. reflexivity. Qed.

Lemma synchronize_applies_composite w x l :
  items (_stack (self w)) = x :: l ->
  synchronize w =
    (Ok tt,
     mkWorld (with_stack (PyList []) (self w))
       (Shape_transform (copy_entries (foldl Multiply x l)) (shape w))
       (doc w)).
Proof. intros He. unfold synchronize, reduce. rewrite He. reflexivity. Qed.

Lemma synchronize_ok_inv w w' :
  synchronize w = (Ok tt, w') ->
  _stack (self w') = PyList [] /\ _matrix (self w') = _matrix (self w).
Proof.
  unfold synchronize. destruct (reduce Multiply (_stack (self w))) as [T|e].
  - intros [= <-]. split; reflexivity.
  - discriminate.
Qed.

(** *** Invariants of the reachable worlds *)

Definition is_list (c : container Transform) : bool :=
  match c with PyList _ => true | Deque _ => false end.

Lemma step_matrix_stays c w m :
  _matrix (self w) = Some m ->
  exists m', _matrix (self (step c w).2) = Some m'.
Proof.
  intros Hm. destruct c; simpl; eauto.
  - unfold clear. destruct (_guid (self w)); simpl; eauto.
  - unfold draw, clear.
    destruct (_guid (self w)); simpl;
      destruct (visible (self w)); simpl;
      try destruct (artist_draw _ _); simpl; eauto.
  - unfold update. rewrite Hm.
    destruct (appendleft m (_stack (self w))) as [stk|e]; simpl; eauto.
    destruct (_guid (self w)) as [g|]; simpl; eauto.
    destruct (doc w !! g); simpl; eauto.
  - unfold synchronize.
    destruct (reduce Multiply (_stack (self w))); simpl; eauto.
Qed.

Lemma step_list_stays c w :
  is_list (_stack (self w)) = true ->
  is_list (_stack (self (step c w).2)) = true.
Proof.
  intros Hl. destruct c; simpl; auto.
  - unfold clear. destruct (_guid (self w)); simpl; auto.
  - unfold draw, clear.
    destruct (_guid (self w)); simpl;
      destruct (visible (self w)); simpl;
      try destruct (artist_draw _ _); simpl; auto.
  - unfold update. destruct (_matrix (self w)) as [m|]; simpl; auto.
    destruct (_stack (self w)) as [l|l] eqn:Es; simpl in *; [discriminate|].
    rewrite Es. reflexivity.
  - unfold synchronize.
    destruct (reduce Multiply (_stack (self w))); simpl; auto.
Qed.

Lemma after_matrix_stays cs w m :
  _matrix (self w) = Some m ->
  exists m', _matrix (self (after cs w)) = Some m'.
Proof.
  revert w m. induction cs as [|c cs IH]; intros w m Hm; simpl; eauto.
  destruct (step_matrix_stays c w m Hm) as [m' Hm']. eauto.
Qed.

Lemma after_list_stays cs w :
  is_list (_stack (self w)) = true ->
  is_list (_stack (self (after cs w))) = true.
Proof.
  revert w. induction cs as [|c cs IH]; intros w Hl; simpl; auto.
  apply IH. apply step_list_stays. exact Hl.
Qed.

(** While no matrix has been assigned, nothing has been pushed and the
    batch is still the empty deque of [__init__]. *)
Lemma reachable_no_matrix w :
  reachable w -> _matrix (self w) = None -> _stack (self w) = Deque [].
Proof.
  induction 1 as [vis s d|c w Hr IH]; intros Hm.
  - reflexivity.
  - destruct (_matrix (self w)) as [m|] eqn:Em.
    + destruct (step_matrix_stays c w m Em) as [m' Hm']. congruence.
    + specialize (IH eq_refl). destruct c; simpl in *; auto.
      * unfold clear. destruct (_guid (self w)); simpl; auto.
      * unfold draw, clear.
        destruct (_guid (self w)); simpl;
          destruct (visible (self w)); simpl;
          try destruct (artist_draw _ _); simpl; auto.
      * rewrite update_no_matrix by assumption. exact IH.
      * rewrite synchronize_empty by (rewrite IH; reflexivity). exact IH.
Qed.

Lemma run_update_synchronize_update w :
  (_matrix (self w) = None -> _stack (self w) = Deque []) ->
  exists e w', run [CUpdate; CSynchronize; CUpdate] w = (Raise e, w').
Proof.
  intros Hinv. simpl.
  destruct (_matrix (self w)) as [m|] eqn:Em.
  - destruct (update w) as [[[]|e] w1] eqn:Eu; [|eauto].
    assert (Hm1 : _matrix (self w1) = Some m).
    { unfold update in Eu. rewrite Em in Eu.
      destruct (appendleft m (_stack (self w))) as [stk|e]; [|discriminate].
      destruct (_guid (with_stack stk (self w))) as [g|]; [|discriminate].
      destruct (Find (Some g) (doc w)); [|discriminate].
      injection Eu as <-. exact Em. }
    destruct (synchronize w1) as [[[]|e] w2] eqn:Es; [|eauto].
    destruct (synchronize_ok_inv _ _ Es) as [Hs2 Hm2].
    rewrite (update_on_list_raises w2 m []) by congruence. eauto.
  - rewrite update_no_matrix by assumption.
    rewrite synchronize_empty by (rewrite Hinv by reflexivity; reflexivity).
    eauto.
Qed.

(** C10: [synchronize] on an empty batch raises (the [TypeError] of [reduce])
    and changes nothing; a [synchronize] that succeeds leaves a plain empty
    list as the batch, and from then on, whatever calls are made in between,
    every [update] with a matrix raises (the [AttributeError] of
    [appendleft]) and changes nothing; and on any shape object a client can
    have, the calls update, synchronize, update never all return. *)
Theorem synchronize_breaks_later_updates w :
  reachable w ->
  (items (_stack (self w)) = [] -> synchronize w = (Raise TypeError, w))
  /\ (forall w', synchronize w = (Ok tt, w') ->
        _stack (self w') = PyList []
        /\ forall cs m, _matrix (self (after cs w')) = Some m ->
             update (after cs w') = (Raise AttributeError, after cs w'))
  /\ exists e w', run [CUpdate; CSynchronize; CUpdate] w = (Raise e, w').
Proof.
  intros Hr. split; [|split].
  - apply synchronize_empty.
  - intros w' Hs. destruct (synchronize_ok_inv _ _ Hs) as [Hs' _].
    split; [exact Hs'|]. intros cs m Hm.
    assert (Hl : is_list (_stack (self (after cs w'))) = true).
    { apply after_list_stays. rewrite Hs'. reflexivity. }
    destruct (_stack (self (after cs w'))) as [l|l] eqn:El; [discriminate|].
    eapply update_on_list_raises; eassumption.
  - apply run_update_synchronize_update. apply reachable_no_matrix. exact Hr.
Qed.

(** Assigning and updating with the matrices [ts] one after the other, on a
    drawn object whose batch is a deque: every matrix has reached the Rhino
    geometry, the batch holds them latest first, and the shape has not been
    touched. *)
Lemma updates_accumulate ts w l g geo :
  _stack (self w) = Deque l ->
  _guid (self w) = Some g ->
  doc w !! g = Some geo ->
  exists w',
    run (flat_map (fun t => [CSetMatrix t; CUpdate]) ts) w = (Ok tt, w')
    /\ _stack (self w') = Deque (rev (map xform_from_transformation ts) ++ l)
    /\ _guid (self w') = Some g
    /\ shape w' = shape w
    /\ doc w' !! g =
         Some (foldl (fun geo t =>
                        Geometry_Transform (xform_from_transformation t) geo)
                 geo ts).
Proof.
  revert w l geo. induction ts as [|t ts IH]; intros w l geo Hs Hg Hd.
  - exists w. simpl. auto.
  - cbn [flat_map app run step].
    rewrite (update_pushes_and_transforms (set_matrix t w)
               (xform_from_transformation t) l g geo)
      by (simpl; auto).
    edestruct (IH (mkWorld
                     (with_stack (Deque (xform_from_transformation t :: l))
                        (self (set_matrix t w)))
                     (shape (set_matrix t w))
                     (<[g := Geometry_Transform (xform_from_transformation t)
                               geo]> (doc (set_matrix t w)))))
      as (w' & Hrun & Hs' & Hg' & Hsh' & Hd').
    + reflexivity.
    + simpl. exact Hg.
    + simpl. apply lookup_insert_eq.
    + exists w'. split; [exact Hrun|]. split.
      * rewrite Hs'. simpl. rewrite <- app_assoc. reflexivity.
      * auto.
Qed.

(** X10: the first batch.  On a freshly drawn object, assigning and updating
    with one matrix after the other and then calling [synchronize] applies
    to the shape the product of the matrices, the latest leftmost, folded
    from the front of the batch, and leaves an empty list as the batch. *)
Lemma updates_then_synchronize t ts w g geo :
  _stack (self w) = Deque [] ->
  _guid (self w) = Some g ->
  doc w !! g = Some geo ->
  exists w' T l,
    run (flat_map (fun t => [CSetMatrix t; CUpdate]) (t :: ts)
           ++ [CSynchronize]) w = (Ok tt, w')
    /\ rev (map xform_from_transformation (t :: ts)) = T :: l
    /\ shape w' = Shape_transform (copy_entries (foldl Multiply T l)) (shape w)
    /\ _stack (self w') = PyList [].
Proof.
  intros Hs Hg Hd.
  destruct (updates_accumulate (t :: ts) w [] g geo Hs Hg Hd)
    as (w1 & Hrun & Hs1 & Hg1 & Hsh1 & Hd1).
  rewrite app_nil_r in Hs1.
  destruct (rev (map xform_from_transformation (t :: ts))) as [|T l] eqn:Er.
  { apply (f_equal length) in Er. rewrite length_rev in Er.
    simpl in Er. discriminate. }
  assert (Hrun' : forall cs1 cs2 w0 w0',
            run cs1 w0 = (Ok tt, w0') -> run (cs1 ++ cs2) w0 = run cs2 w0').
  { induction cs1 as [|c cs1 IHc]; intros cs2 w0 w0' Hr0; simpl in *.
    - injection Hr0 as <-. reflexivity.
    - destruct (step c w0) as [[[]|e] w0'']; [eauto|discriminate]. }
  eexists _, T, l. rewrite (Hrun' _ _ _ _ Hrun). cbn [run step].
  rewrite (synchronize_applies_composite w1 T l) by (rewrite Hs1; reflexivity).
  repeat split; try reflexivity. simpl. rewrite Hsh1. reflexivity.
Qed.

(** *** More on shape objects *)

Lemma clear_forgets_guid w : _guid (self (clear w)) = None.
Proof.
  unfold clear. destruct (_guid (self w)) as [g|] eqn:Eg; simpl; auto.
Qed.

(** X7: [clear] removes the Rhino object of the shape object from the
    document and forgets its guid; clearing again, or clearing an object
    that was never drawn, does nothing. *)
Theorem clear_removes_object w :
  _guid (self (clear w)) = None
  /\ (forall g, _guid (self w) = Some g -> doc (clear w) !! g = None)
  /\ (_guid (self w) = None -> clear w = w)
  /\ clear (clear w) = clear w.
Proof.
  unfold clear. destruct (_guid (self w)) as [g|] eqn:Eg; simpl.
  - repeat split; try discriminate.
    intros g' [= <-]. apply lookup_delete_eq.
  - rewrite Eg. repeat split; try discriminate.
Qed.

(** X8: drawing an object that is not visible only clears it: it has no
    Rhino object afterwards, so an [update] with a pending matrix raises. *)
Theorem draw_invisible w :
  visible (self w) = false ->
  draw w = clear w
  /\ _guid (self (draw w)) = None
  /\ (forall m, _matrix (self w) = Some m ->
      (update (draw w)).1 = Raise AttributeError).
Proof.
  intros Hv.
  assert (Hd : draw w = clear w).
  { unfold draw. replace (visible (self (clear w))) with false; [reflexivity|].
    unfold clear. destruct (_guid (self w)); simpl; congruence. }
  rewrite Hd. split; [reflexivity|].
  split; [apply clear_forgets_guid|].
  intros m Hm.
  assert (Hm' : _matrix (self (clear w)) = Some m).
  { unfold clear. destruct (_guid (self w)); exact Hm. }
  assert (Hg' : _guid (self (clear w)) = None) by apply clear_forgets_guid.
  destruct (_stack (self (clear w))) as [l|l] eqn:Es.
  - rewrite (update_not_drawn (clear w) m l); auto.
    rewrite Hg'. reflexivity.
  - rewrite (update_on_list_raises (clear w) m l); auto.
Qed.

(** X9: what each call leaves alone.  The shape is changed only by
    [synchronize] and by the shape setter, the Rhino document only by
    [clear], [draw] and [update], the pending matrix only by its setter,
    the batch only by [update] and [synchronize], and the guid only by
    [clear] and [draw]. *)
Theorem calls_frame c w :
  (match c with
   | CSynchronize | CSetShape _ => True
   | _ => shape (step c w).2 = shape w
   end)
  /\ (match c with
      | CClear | CDraw | CUpdate => True
      | _ => doc (step c w).2 = doc w
      end)
  /\ (match c with
      | CSetMatrix _ => True
      | _ => _matrix (self (step c w).2) = _matrix (self w)
      end)
  /\ (match c with
      | CUpdate | CSynchronize => True
      | _ => _stack (self (step c w).2) = _stack (self w)
      end)
  /\ (match c with
      | CClear | CDraw => True
      | _ => _guid (self (step c w).2) = _guid (self w)
      end).
Proof.
  destruct c; simpl.
  - repeat split.
  - repeat split.
  - repeat split.
  - unfold clear. destruct (_guid (self w)); repeat split.
  - unfold draw, clear.
    destruct (_guid (self w)); simpl;
      destruct (visible (self w)); simpl;
      try destruct (artist_draw _ _); repeat split.
  - unfold update.
    destruct (_matrix (self w)) as [m|] eqn:Em;
      [|repeat split; exact Em].
    destruct (appendleft m (_stack (self w))) as [stk|e];
      [|repeat split; exact Em].
    simpl. destruct (_guid (self w)) as [g|] eqn:Eg; simpl;
      [destruct (doc w !! g)|]; simpl; repeat split; congruence.
  - unfold synchronize.
    destruct (reduce Multiply (_stack (self w))); repeat split.
Qed.

(** X11: an [update] that fails because the object has no Rhino object has
    already pushed the matrix: the batch keeps it, and a later [synchronize]
    applies it to the shape although no Rhino geometry was ever moved. *)
Theorem failed_update_is_batched w t :
  _stack (self w) = Deque [] ->
  Find (_guid (self w)) (doc w) = None ->
  exists w1,
    step CUpdate (set_matrix t w) = (Raise AttributeError, w1)
    /\ _stack (self w1) = Deque [xform_from_transformation t]
    /\ doc w1 = doc w
    /\ shape w1 = shape w
    /\ synchronize w1 =
         (Ok tt,
          mkWorld (with_stack (PyList []) (self w1))
            (Shape_transform (copy_entries (xform_from_transformation t))
               (shape w))
            (doc w)).
Proof.
  intros Hs Hf. eexists. split.
  - simpl. apply (update_not_drawn (set_matrix t w)
                    (xform_from_transformation t) []); simpl; auto.
  - simpl. repeat split.
Qed.

Lemma step_empty_list_stays c w :
  _stack (self w) = PyList [] -> _stack (self (step c w).2) = PyList [].
Proof.
  intros Hl. destruct c; simpl; auto.
  - unfold clear. destruct (_guid (self w)); simpl; auto.
  - unfold draw, clear.
    destruct (_guid (self w)); simpl;
      destruct (visible (self w)); simpl;
      try destruct (artist_draw _ _); simpl; auto.
  - unfold update. destruct (_matrix (self w)) as [m|]; simpl; auto.
    rewrite Hl. simpl. exact Hl.
  - unfold synchronize. rewrite Hl. simpl. exact Hl.
Qed.

(** X12: a shape object synchronizes at most once.  After a [synchronize]
    that succeeded the batch is an empty list and stays one whatever is
    called, so every later [synchronize] raises [TypeError] and changes
    nothing. *)
Theorem synchronize_only_once w w' cs :
  synchronize w = (Ok tt, w') ->
  _stack (self (after cs w')) = PyList []
  /\ synchronize (after cs w') = (Raise TypeError, after cs w').
Proof.
  intros Hs. destruct (synchronize_ok_inv _ _ Hs) as [Hs' _].
  assert (Hl : _stack (self (after cs w')) = PyList []).
  { clear Hs. revert w' Hs'. induction cs as [|c cs IH]; intros w' Hs'.
    - exact Hs'.
    - simpl. apply IH. apply step_empty_list_stays. exact Hs'. }
  split; [exact Hl|]. apply synchronize_empty. rewrite Hl. reflexivity.
Qed.

Lemma replicate_cons_middle {X} n (x : X) l :
  replicate n x ++ x :: l = x :: replicate n x ++ l.
Proof. induction n as [|n IH]; simpl; [|rewrite IH]; reflexivity. Qed.

(** X13: [update] does not use up the pending matrix.  Calling it [n] times
    on a drawn object, without assigning a matrix in between, transforms the
    Rhino geometry [n] times by the same matrix and pushes the matrix [n]
    times; the shape is not touched. *)
Theorem update_keeps_matrix_pending n w m l g geo :
  _matrix (self w) = Some m ->
  _stack (self w) = Deque l ->
  _guid (self w) = Some g ->
  doc w !! g = Some geo ->
  exists w',
    run (replicate n CUpdate) w = (Ok tt, w')
    /\ _matrix (self w') = Some m
    /\ _stack (self w') = Deque (replicate n m ++ l)
    /\ _guid (self w') = Some g
    /\ doc w' !! g = Some (Nat.iter n (Geometry_Transform m) geo)
    /\ shape w' = shape w.
Proof.
  revert w l geo. induction n as [|n IH]; intros w l geo Hm Hs Hg Hd.
  - exists w. simpl. auto 6.
  - cbn [replicate run step].
    rewrite (update_pushes_and_transforms w m l g geo) by assumption.
    edestruct (IH (mkWorld (with_stack (Deque (m :: l)) (self w)) (shape w)
                     (<[g := Geometry_Transform m geo]> (doc w))))
      as (w' & Hrun & Hm' & Hs' & Hg' & Hd' & Hsh').
    + exact Hm.
    + reflexivity.
    + exact Hg.
    + simpl. apply lookup_insert_eq.
    + exists w'. split; [exact Hrun|]. split; [exact Hm'|].
      split; [rewrite Hs', replicate_cons_middle; reflexivity|].
      split; [exact Hg'|]. split; [|exact Hsh'].
      rewrite Hd', Nat.iter_succ_r. reflexivity.
Qed.

End shape_object.

(** *** The entry loops of [synchronize]

    For a [Transformation] whose entry assignment and entry access behave as
    those of a matrix, the two loops copy every entry of the Rhino
    transform. *)

Section entries.

Context {Scalar Transform Transformation : Type}.

Variable Transform_getitem : Transform -> nat -> nat -> Scalar.
Variable Transformation_new : Transformation.
Variable Transformation_setitem :
  nat -> nat -> Scalar -> Transformation -> Transformation.
Variable Transformation_getitem : Transformation -> nat -> nat -> Scalar.

Hypothesis getitem_setitem_same :
  forall i j v M,
    Transformation_getitem (Transformation_setitem i j v M) i j = v.
Hypothesis getitem_setitem_other :
  forall i j i' j' v M,
    (i, j) <> (i', j') ->
    Transformation_getitem (Transformation_setitem i j v M) i' j'
    = Transformation_getitem M i' j'.

(** X14: after the loops, [M[i, j] = T[i, j]] for all [i] and [j] below 4:
    nothing of the identity that [Transformation()] starts from is left. *)
Theorem copy_entries_copies (T : Transform) (i j : nat) :
  i < 4 -> j < 4 ->
  Transformation_getitem
    (copy_entries Transform_getitem Transformation_new Transformation_setitem T)
    i j
  = Transform_getitem T i j.
Proof.
  intros Hi Hj. unfold copy_entries. cbn [seq foldl].
  destruct i as [|[|[|[|i]]]]; [| | | |lia];
    (destruct j as [|[|[|[|j]]]]; [| | | |lia]);
    repeat (rewrite getitem_setitem_other by (intros [=]));
    apply getitem_setitem_same.
Qed.

End entries.
End ShapeObject.

(** ** Bounding boxes: [compas/geometry/bbox/bbox.py]

    A point is a sequence of coordinates; the coordinates are numbers, of which
    the functions use only the comparison [<] (through the built-ins [min]
    and [max]) and, in [bounding_box_xy], the literal [0.0]. *)

Module BBox.
Section bbox.

Context {A : Type}.

(** [a < b] on coordinates, and the float literal [0.0]. *)
Variable ltb : A -> A -> bool.
Variable zero : A.

(** The built-in [min]: the first item is the candidate, and a later item
    replaces the candidate when it is smaller ([item < best]). *)
Fixpoint min_from (best : A) (l : list A) : A :=
  match l with
  | [] => best
  | a :: l => min_from (if ltb a best then a else best) l
  end.

Definition py_min (l : list A) : result A :=
  match l with
  | [] => Raise ValueError
  | a :: l => Ok (min_from a l)
  end.

(** The built-in [max]: a later item replaces the candidate when it is
    greater ([item > best]). *)
Fixpoint max_from (best : A) (l : list A) : A :=
  match l with
  | [] => best
  | a :: l => max_from (if ltb best a then a else best) l
  end.

Definition py_max (l : list A) : result A :=
  match l with
  | [] => Raise ValueError
  | a :: l => Ok (max_from a l)
  end.

(** The first coordinates of all points, if every point has one. *)
Fixpoint heads (ps : list (list A)) : option (list A) :=
  match ps with
  | [] => Some []
  | [] :: _ => None
  | (a :: _) :: ps => option_map (cons a) (heads ps)
  end.

(** [zip] applied to the unpacked [points]: the tuple of the first coordinates, the tuple of the
    second coordinates, and so on, as long as every point has one more
    coordinate; nothing at all for no points.  The first point counts the
    rounds: there cannot be more than it has coordinates. *)
Fixpoint zip_rounds (count : list A) (ps : list (list A)) : list (list A) :=
  match count with
  | [] => []
  | _ :: count =>
      match heads ps with
      | Some hs => hs :: zip_rounds count (drop 1 <$> ps)
      | None => []
      end
  end.

Definition zip_star (ps : list (list A)) : list (list A) :=
  match ps with
  | [] => []
  | p :: _ => zip_rounds p ps
  end.

(** [bounding_box(points)].  [x, y, z = zip(...)] on the unpacked points raises [ValueError]
    unless [zip] yields exactly three tuples. *)
Definition bounding_box (points : list (list A)) : result (list (list A)) :=
  match zip_star points with
  | [x; y; z] =>
      min_x ← py_min x;
      max_x ← py_max x;
      min_y ← py_min y;
      max_y ← py_max y;
      min_z ← py_min z;
      max_z ← py_max z;
      Ok [[min_x; min_y; min_z];
          [max_x; min_y; min_z];
          [max_x; max_y; min_z];
          [min_x; max_y; min_z];
          [min_x; min_y; max_z];
          [max_x; min_y; max_z];
          [max_x; max_y; max_z];
          [min_x; max_y; max_z]]
  | _ => Raise ValueError
  end.

(** [bounding_box_xy(points)].  [x, y = islice(zip(...), 2)] takes the
    first two tuples of [zip] and raises [ValueError] if there are fewer. *)
Definition bounding_box_xy (points : list (list A)) : result (list (list A)) :=
  match take 2 (zip_star points) with
  | [x; y] =>
      min_x ← py_min x;
      max_x ← py_max x;
      min_y ← py_min y;
      max_y ← py_max y;
      Ok [[min_x; min_y; zero];
          [max_x; min_y; zero];
          [max_x; max_y; zero];
          [min_x; max_y; zero]]
  | _ => Raise ValueError
  end.

(** [m] is a minimum of [l]: one of its items, and no item is smaller. *)
Definition is_min (m : A) (l : list A) : Prop :=
  m ∈ l /\ forall a, a ∈ l -> ltb a m = false.

(** [m] is a maximum of [l]: one of its items, and no item is greater. *)
Definition is_max (m : A) (l : list A) : Prop :=
  m ∈ l /\ forall a, a ∈ l -> ltb m a = false.

(** A 3D point as the list of its coordinates. *)
Definition point3 (t : A * A * A) : list A := [t.1.1; t.1.2; t.2].

(** The [i]-th coordinates of the points that have one. *)
Definition coords (i : nat) (ps : list (list A)) : list A :=
  omap (fun p => p !! i) ps.

(** [p] lies inside or on the box with the opposite corners [lo] and [hi]:
    no coordinate is below [lo]'s or above [hi]'s. *)
Definition inside (lo hi p : list A) : Prop :=
  Forall2 (fun l c => ltb c l = false) lo p
  /\ Forall2 (fun h c => ltb h c = false) hi p.

(** *** [zip] on points *)

Lemma heads_cons (h : A * A * A -> A) (g : A * A * A -> list A) ts :
  heads ((fun t => h t :: g t) <$> ts) = Some (h <$> ts).
Proof.
  induction ts as [|t ts IH]; [reflexivity|].
  rewrite !fmap_cons. cbn [heads]. rewrite IH. reflexivity.
Qed.

Lemma zip_rounds_point3 (c1 c2 c3 : A) ts :
  zip_rounds [c1; c2; c3] (point3 <$> ts) =
    [ (fun t => t.1.1) <$> ts;
      (fun t => t.1.2) <$> ts;
      (fun t => t.2) <$> ts ].
Proof.
  cbn [zip_rounds].
  change (point3 <$> ts) with ((fun t => t.1.1 :: [t.1.2; t.2]) <$> ts).
  rewrite heads_cons, <- list_fmap_compose.
  change (drop 1 ∘ _) with (fun t : A * A * A => t.1.2 :: [t.2]).
  rewrite heads_cons, <- list_fmap_compose.
  change (drop 1 ∘ _) with (fun t : A * A * A => t.2 :: []).
  rewrite heads_cons. reflexivity.
Qed.

Lemma zip_star_point3 t ts :
  zip_star (point3 <$> (t :: ts)) =
    [ (fun t => t.1.1) <$> (t :: ts);
      (fun t => t.1.2) <$> (t :: ts);
      (fun t => t.2) <$> (t :: ts) ].
Proof.
  rewrite <- (zip_rounds_point3 t.1.1 t.1.2 t.2). reflexivity.
Qed.

Lemma points3_tuples (ps : list (list A)) :
  Forall (fun p => length p = 3) ps -> exists ts, ps = point3 <$> ts.
Proof.
  induction 1 as [|p ps Hp _ [ts ->]].
  - exists []. reflexivity.
  - destruct p as [|x [|y [|z [|? ?]]]]; try discriminate.
    exists ((x, y, z) :: ts). reflexivity.
Qed.

Lemma coords_point3 ts :
  coords 0 (point3 <$> ts) = (fun t => t.1.1) <$> ts
  /\ coords 1 (point3 <$> ts) = (fun t => t.1.2) <$> ts
  /\ coords 2 (point3 <$> ts) = (fun t => t.2) <$> ts.
Proof.
  unfold coords. induction ts as [|t ts (IH0 & IH1 & IH2)]; [auto|].
  simpl. repeat split; f_equal; assumption.
Qed.

(** *** [min] and [max] under a strict order *)

Section order.

Hypothesis ltb_irrefl : forall a, ltb a a = false.
Hypothesis ltb_trans :
  forall a b c, ltb a b = true -> ltb b c = true -> ltb a c = true.

Lemma min_from_spec best l :
  let r := min_from best l in
  r ∈ best :: l
  /\ (r = best \/ ltb r best = true)
  /\ forall a, a ∈ best :: l -> ltb a r = false.
Proof.
  revert best. induction l as [|a l IH]; intros best; simpl.
  - split; [left|split; [left; reflexivity|]].
    intros a Ha. apply list_elem_of_singleton in Ha as ->. apply ltb_irrefl.
  - destruct (IH (if ltb a best then a else best)) as (Hin & Hle & Hall).
    destruct (ltb a best) eqn:Eab.
    + assert (Hrb : ltb (min_from a l) best = true).
      { destruct Hle as [->|Hlt]; [exact Eab|]. eapply ltb_trans; eauto. }
      split; [right; exact Hin|]. split; [right; exact Hrb|].
      intros c Hc. apply elem_of_cons in Hc as [->|Hc]; [|apply Hall, Hc].
      destruct (ltb best (min_from a l)) eqn:E; [|reflexivity].
      rewrite <- (ltb_irrefl best). symmetry. eapply ltb_trans; eauto.
    + split.
      { apply elem_of_cons in Hin as [->|Hin]; [left|right; right; exact Hin]. }
      split; [exact Hle|].
      intros c Hc. apply elem_of_cons in Hc as [->|Hc].
      { apply Hall. left. }
      apply elem_of_cons in Hc as [->|Hc]; [|apply Hall; right; exact Hc].
      destruct Hle as [->|Hlt]; [exact Eab|].
      destruct (ltb a (min_from best l)) eqn:E; [|reflexivity].
      rewrite <- Eab. symmetry. eapply ltb_trans; eauto.
Qed.

Lemma max_from_spec best l :
  let r := max_from best l in
  r ∈ best :: l
  /\ (r = best \/ ltb best r = true)
  /\ forall a, a ∈ best :: l -> ltb r a = false.
Proof.
  revert best. induction l as [|a l IH]; intros best; simpl.
  - split; [left|split; [left; reflexivity|]].
    intros a Ha. apply list_elem_of_singleton in Ha as ->. apply ltb_irrefl.
  - destruct (IH (if ltb best a then a else best)) as (Hin & Hle & Hall).
    destruct (ltb best a) eqn:Eab.
    + assert (Hrb : ltb best (max_from a l) = true).
      { destruct Hle as [->|Hlt]; [exact Eab|]. eapply ltb_trans; eauto. }
      split; [right; exact Hin|]. split; [right; exact Hrb|].
      intros c Hc. apply elem_of_cons in Hc as [->|Hc]; [|apply Hall, Hc].
      destruct (ltb (max_from a l) best) eqn:E; [|reflexivity].
      rewrite <- (ltb_irrefl best). symmetry. eapply ltb_trans; eauto.
    + split.
      { apply elem_of_cons in Hin as [->|Hin]; [left|right; right; exact Hin]. }
      split; [exact Hle|].
      intros c Hc. apply elem_of_cons in Hc as [->|Hc].
      { apply Hall. left. }
      apply elem_of_cons in Hc as [->|Hc]; [|apply Hall; right; exact Hc].
      destruct Hle as [->|Hlt]; [exact Eab|].
      destruct (ltb (max_from best l) a) eqn:E; [|reflexivity].
      rewrite <- Eab. symmetry. eapply ltb_trans; eauto.
Qed.

Lemma py_min_spec a l : exists m, py_min (a :: l) = Ok m /\ is_min m (a :: l).
Proof.
  exists (min_from a l). split; [reflexivity|].
  destruct (min_from_spec a l) as (Hin & _ & Hall). split; assumption.
Qed.

Lemma py_max_spec a l : exists m, py_max (a :: l) = Ok m /\ is_max m (a :: l).
Proof.
  exists (max_from a l). split; [reflexivity|].
  destruct (max_from_spec a l) as (Hin & _ & Hall). split; assumption.
Qed.

(** C4: for a non-empty list of 3D points [bounding_box] returns eight
    points, the corners of the box spanned by the minima and the maxima of
    the x, the y and the z coordinates of the input, in the order
    (min,min,min), (max,min,min), (max,max,min), (min,max,min),
    (min,min,max), (max,min,max), (max,max,max), (min,max,max); and every
    input point lies inside or on that box.  The function only reads
    [points]: it is a function of the list and returns new lists. *)
Theorem bounding_box_corners (ps : list (list A)) :
  ps <> [] ->
  Forall (fun p => length p = 3) ps ->
  exists min_x max_x min_y max_y min_z max_z,
    bounding_box ps =
      Ok [[min_x; min_y; min_z];
          [max_x; min_y; min_z];
          [max_x; max_y; min_z];
          [min_x; max_y; min_z];
          [min_x; min_y; max_z];
          [max_x; min_y; max_z];
          [max_x; max_y; max_z];
          [min_x; max_y; max_z]]
    /\ is_min min_x (coords 0 ps) /\ is_max max_x (coords 0 ps)
    /\ is_min min_y (coords 1 ps) /\ is_max max_y (coords 1 ps)
    /\ is_min min_z (coords 2 ps) /\ is_max max_z (coords 2 ps)
    /\ Forall (inside [min_x; min_y; min_z] [max_x; max_y; max_z]) ps.
Proof.
  intros Hne H3. destruct (points3_tuples ps H3) as [ts ->].
  destruct ts as [|t ts]; [exfalso; apply Hne; reflexivity|].
  destruct (coords_point3 (t :: ts)) as (-> & -> & ->).
  unfold bounding_box. rewrite zip_star_point3, !fmap_cons.
  destruct (py_min_spec t.1.1 ((fun t => t.1.1) <$> ts)) as (min_x & -> & Hmin_x).
  destruct (py_max_spec t.1.1 ((fun t => t.1.1) <$> ts)) as (max_x & -> & Hmax_x).
  destruct (py_min_spec t.1.2 ((fun t => t.1.2) <$> ts)) as (min_y & -> & Hmin_y).
  destruct (py_max_spec t.1.2 ((fun t => t.1.2) <$> ts)) as (max_y & -> & Hmax_y).
  destruct (py_min_spec t.2 ((fun t => t.2) <$> ts)) as (min_z & -> & Hmin_z).
  destruct (py_max_spec t.2 ((fun t => t.2) <$> ts)) as (max_z & -> & Hmax_z).
  exists min_x, max_x, min_y, max_y, min_z, max_z.
  split; [reflexivity|]. do 6 (split; [assumption|]).
  apply Forall_forall. intros q Hq.
  apply (list_elem_of_fmap_1 point3 (t :: ts)) in Hq as (p & -> & Hp).
  unfold inside, point3. split; repeat constructor.
  - apply Hmin_x. exact (list_elem_of_fmap_2 (fun t => t.1.1) _ _ Hp).
  - apply Hmin_y. exact (list_elem_of_fmap_2 (fun t => t.1.2) _ _ Hp).
  - apply Hmin_z. exact (list_elem_of_fmap_2 (fun t => t.2) _ _ Hp).
  - apply Hmax_x. exact (list_elem_of_fmap_2 (fun t => t.1.1) _ _ Hp).
  - apply Hmax_y. exact (list_elem_of_fmap_2 (fun t => t.1.2) _ _ Hp).
  - apply Hmax_z. exact (list_elem_of_fmap_2 (fun t => t.2) _ _ Hp).
Qed.

End order.

(** *** [bounding_box_xy] reads two coordinates of every point *)

Lemma heads_take k (ps : list (list A)) :
  heads (take (S k) <$> ps) = heads ps.
Proof.
  induction ps as [|[|a p] ps IH]; [reflexivity..|].
  rewrite fmap_cons. cbn [take heads]. rewrite IH. reflexivity.
Qed.

Lemma drop_take_points k (ps : list (list A)) :
  drop 1 <$> (take (S k) <$> ps) = take k <$> (drop 1 <$> ps).
Proof.
  rewrite <- !list_fmap_compose. apply list_fmap_ext.
  intros _ [|a p] _; simpl; [destruct k|]; reflexivity.
Qed.

Lemma take_zip_rounds k count (ps : list (list A)) :
  take k (zip_rounds count ps) = zip_rounds (take k count) (take k <$> ps).
Proof.
  revert k ps. induction count as [|c count IH]; intros k ps.
  - destruct k; reflexivity.
  - destruct k as [|k]; [reflexivity|].
    cbn [take zip_rounds]. rewrite heads_take, drop_take_points.
    destruct (heads ps) as [hs|]; [|reflexivity].
    cbn [take]. rewrite IH. reflexivity.
Qed.

Lemma take_zip_star k (ps : list (list A)) :
  take k (zip_star ps) = zip_star (take k <$> ps).
Proof.
  destruct ps as [|p ps]; [destruct k; reflexivity|].
  unfold zip_star. rewrite fmap_cons, take_zip_rounds, fmap_cons. reflexivity.
Qed.

Lemma bounding_box_xy_take (ps : list (list A)) :
  bounding_box_xy ps = bounding_box_xy (take 2 <$> ps).
Proof.
  unfold bounding_box_xy. rewrite !take_zip_star, <- list_fmap_compose.
  replace (take 2 ∘ take 2 <$> ps) with (take 2 <$> ps); [reflexivity|].
  apply list_fmap_ext. intros _ p _. simpl.
  rewrite take_take. reflexivity.
Qed.

(** Two 3D points with the same x and the same y. *)
Definition same_xy (p q : list A) : Prop :=
  exists x y z z', p = [x; y; z] /\ q = [x; y; z'].

Lemma same_xy_take ps qs :
  Forall2 same_xy ps qs -> take 2 <$> ps = take 2 <$> qs.
Proof.
  induction 1 as [|p q ps qs (x & y & z & z' & -> & ->) _ IH];
    [reflexivity|].
  rewrite !fmap_cons, IH. reflexivity.
Qed.

Lemma same_xy_3d ps qs :
  Forall2 same_xy ps qs -> Forall (fun p => length p = 3) ps.
Proof.
  induction 1 as [|p q ps qs (x & y & z & z' & -> & ->) _ IH];
    constructor; auto.
Qed.

(** C5: two non-empty lists of 3D points that agree, point by point, in x
    and in y have the same [bounding_box_xy], whatever their z coordinates
    are; the result is a rectangle of four corners, each with the third
    coordinate [0.0]. *)
Theorem bounding_box_xy_ignores_z (ps qs : list (list A)) :
  ps <> [] ->
  Forall2 same_xy ps qs ->
  bounding_box_xy ps = bounding_box_xy qs
  /\ exists c0 c1 c2 c3,
       bounding_box_xy ps = Ok [c0; c1; c2; c3]
       /\ Forall (fun c => length c = 3 /\ c !! 2 = Some zero) [c0; c1; c2; c3].
Proof.
  intros Hne Hxy. split.
  - rewrite (bounding_box_xy_take ps), (bounding_box_xy_take qs).
    rewrite (same_xy_take _ _ Hxy). reflexivity.
  - destruct (points3_tuples ps (same_xy_3d _ _ Hxy)) as [ts ->].
    destruct ts as [|t ts]; [exfalso; apply Hne; reflexivity|].
    unfold bounding_box_xy. rewrite zip_star_point3, !fmap_cons.
    cbn [take py_min py_max mbind result_bind].
    do 4 eexists. split; [reflexivity|].
    repeat constructor.
Qed.

(** *** Which inputs the two functions accept *)

Lemma heads_ok ps :
  Forall (fun p : list A => 1 <= length p) ps ->
  exists hs, heads ps = Some hs /\ length hs = length ps.
Proof.
  induction 1 as [|p ps Hp _ (hs & IH & Hlen)].
  - exists []. split; reflexivity.
  - destruct p as [|a p]; [simpl in Hp; lia|].
    exists (a :: hs). cbn [heads]. rewrite IH. simpl. rewrite Hlen. auto.
Qed.

Lemma heads_fail ps :
  ~ Forall (fun p : list A => 1 <= length p) ps -> heads ps = None.
Proof.
  induction ps as [|p ps IH]; intros Hn.
  - exfalso. apply Hn. constructor.
  - destruct p as [|a p]; [reflexivity|].
    cbn [heads]. rewrite IH; [reflexivity|].
    intros Hall. apply Hn. constructor; [simpl; lia|exact Hall].
Qed.

Lemma Forall_length_drop k (ps : list (list A)) :
  Forall (fun p => S k <= length p) ps
  <-> Forall (fun p => 1 <= length p) ps
      /\ Forall (fun p => k <= length p) (drop 1 <$> ps).
Proof.
  rewrite Forall_fmap. rewrite <- Forall_and.
  apply Forall_iff. intros p. simpl. rewrite length_drop. lia.
Qed.

(** [zip] yields at least [k] tuples exactly when the counting point and
    all points have at least [k] coordinates. *)
Lemma zip_rounds_length_ge k count (ps : list (list A)) :
  k <= length (zip_rounds count ps)
  <-> k = 0 \/ (k <= length count /\ Forall (fun p => k <= length p) ps).
Proof.
  revert k ps. induction count as [|c count IH]; intros k ps.
  - simpl. split; [lia|]. intros [->|[Hk _]]; lia.
  - destruct k as [|k]; [split; [auto|lia]|].
    cbn [zip_rounds].
    destruct (decide (Forall (fun p : list A => 1 <= length p) ps))
      as [Hall|Hn].
    + destruct (heads_ok ps Hall) as (hs & -> & _). simpl.
      rewrite <- Nat.succ_le_mono, IH, Forall_length_drop.
      split.
      * intros [->|[Hk Hd]]; right; (split; [lia|]); split; auto.
        apply Forall_fmap, Forall_forall. intros; simpl; lia.
      * intros [|[Hk [_ Hd]]]; [lia|]. right. split; [lia|exact Hd].
    + rewrite (heads_fail ps Hn). simpl. split; [lia|].
      intros [|[_ Hk]]; [lia|]. exfalso. apply Hn.
      eapply Forall_impl; [exact Hk|]. intros; simpl in *; lia.
Qed.

Lemma zip_star_length_ge k (ps : list (list A)) :
  S k <= length (zip_star ps)
  <-> ps <> [] /\ Forall (fun p => S k <= length p) ps.
Proof.
  destruct ps as [|p ps]; simpl.
  - split; [lia|intros [[] _]; reflexivity].
  - rewrite zip_rounds_length_ge. split.
    + intros [|[_ Hall]]; [lia|]. split; [discriminate|exact Hall].
    + intros [_ Hall]. right. split; [|exact Hall].
      apply Forall_inv in Hall. exact Hall.
Qed.

(** Every tuple that [zip] yields has one item per point. *)
Lemma zip_rounds_tuples count (ps : list (list A)) :
  Forall (fun t => length t = length ps) (zip_rounds count ps).
Proof.
  revert ps. induction count as [|c count IH]; intros ps; [constructor|].
  cbn [zip_rounds].
  destruct (decide (Forall (fun p : list A => 1 <= length p) ps))
    as [Hall|Hn].
  - destruct (heads_ok ps Hall) as (hs & -> & Hlen).
    constructor; [exact Hlen|].
    specialize (IH (drop 1 <$> ps)). rewrite length_fmap in IH. exact IH.
  - rewrite (heads_fail ps Hn). constructor.
Qed.

Lemma zip_star_tuples (ps : list (list A)) :
  Forall (fun t => t <> []) (zip_star ps).
Proof.
  destruct ps as [|p ps]; [constructor|].
  eapply Forall_impl; [apply zip_rounds_tuples|].
  intros t Ht ->. discriminate.
Qed.

Lemma py_min_nonempty (l : list A) : l <> [] -> exists m, py_min l = Ok m.
Proof. destruct l; [congruence|eauto]. Qed.

Lemma py_max_nonempty (l : list A) : l <> [] -> exists m, py_max l = Ok m.
Proof. destruct l; [congruence|eauto]. Qed.

(** X15: [bounding_box] returns a box exactly when there is at least one
    point, every point has at least three coordinates and some point has
    exactly three: [zip] stops at the shortest point, so coordinates beyond
    the shortest point's third one are dropped without notice.  In every
    other case, the empty list among them, it raises [ValueError]. *)
Theorem bounding_box_accepts (ps : list (list A)) :
  let accepted :=
    ps <> [] /\ Forall (fun p => 3 <= length p) ps
    /\ Exists (fun p => length p = 3) ps in
  ((exists box, bounding_box ps = Ok box) <-> accepted)
  /\ (~ accepted -> bounding_box ps = Raise ValueError).
Proof.
  assert (Hlen : length (zip_star ps) = 3 <->
            ps <> [] /\ Forall (fun p => 3 <= length p) ps
            /\ Exists (fun p => length p = 3) ps).
  { assert (H3 := zip_star_length_ge 2 ps).
    assert (H4 := zip_star_length_ge 3 ps).
    split.
    - intros Hl. destruct H3 as [H3 _].
      destruct H3 as [Hne Hall]; [lia|].
      split; [exact Hne|]. split; [exact Hall|].
      destruct (decide (Forall (fun p : list A => 4 <= length p) ps))
        as [Hall4|Hn4].
      + destruct H4 as [_ H4]. specialize (H4 (conj Hne Hall4)). lia.
      + apply not_Forall_Exists in Hn4; [|intros p; apply _].
        apply Exists_exists in Hn4 as (p & Hp & Hlt).
        apply Exists_exists. exists p. split; [exact Hp|].
        rewrite Forall_forall in Hall. specialize (Hall p Hp).
        simpl in *. lia.
    - intros (Hne & Hall & Hex).
      destruct H3 as [_ H3]. specialize (H3 (conj Hne Hall)).
      destruct (decide (4 <= length (zip_star ps))) as [Hge|]; [|lia].
      apply H4 in Hge as [_ Hall4].
      apply Exists_exists in Hex as (p & Hp & Hp3).
      rewrite Forall_forall in Hall4. specialize (Hall4 p Hp). lia. }
  assert (Hok : (exists box, bounding_box ps = Ok box)
                <-> length (zip_star ps) = 3).
  { unfold bounding_box. pose proof (zip_star_tuples ps) as Hne.
    destruct (zip_star ps) as [|x [|y [|z [|t l]]]]; simpl;
      try (split; [intros [? [=]]|discriminate]).
    split; [reflexivity|]. intros _.
    inversion Hne as [|? ? Hx Hne1]; subst.
    inversion Hne1 as [|? ? Hy Hne2]; subst.
    inversion Hne2 as [|? ? Hz _]; subst.
    destruct (py_min_nonempty x Hx) as [? ->].
    destruct (py_max_nonempty x Hx) as [? ->].
    destruct (py_min_nonempty y Hy) as [? ->].
    destruct (py_max_nonempty y Hy) as [? ->].
    destruct (py_min_nonempty z Hz) as [? ->].
    destruct (py_max_nonempty z Hz) as [? ->].
    simpl. eauto. }
  intros accepted. subst accepted. rewrite <- Hlen. split; [exact Hok|].
  intros Hn. unfold bounding_box.
  destruct (zip_star ps) as [|x [|y [|z [|t l]]]]; try reflexivity.
  exfalso. apply Hn. reflexivity.
Qed.

(** X16: [bounding_box_xy] returns a rectangle exactly when there is at
    least one point and every point has at least two coordinates (points
    with two, three or more coordinates may be mixed); otherwise it raises
    [ValueError]. *)
Theorem bounding_box_xy_accepts (ps : list (list A)) :
  let accepted := ps <> [] /\ Forall (fun p => 2 <= length p) ps in
  ((exists box, bounding_box_xy ps = Ok box) <-> accepted)
  /\ (~ accepted -> bounding_box_xy ps = Raise ValueError).
Proof.
  assert (Hlen : 2 <= length (zip_star ps) <->
            ps <> [] /\ Forall (fun p => 2 <= length p) ps)
    by apply zip_star_length_ge.
  assert (Hok : (exists box, bounding_box_xy ps = Ok box)
                <-> 2 <= length (zip_star ps)).
  { unfold bounding_box_xy. pose proof (zip_star_tuples ps) as Hne.
    destruct (zip_star ps) as [|x [|y l]]; simpl;
      try (split; [intros [? [=]]|lia]).
    split; [lia|]. intros _.
    inversion Hne as [|? ? Hx Hne1]; subst.
    inversion Hne1 as [|? ? Hy _]; subst.
    destruct (py_min_nonempty x Hx) as [? ->].
    destruct (py_max_nonempty x Hx) as [? ->].
    destruct (py_min_nonempty y Hy) as [? ->].
    destruct (py_max_nonempty y Hy) as [? ->].
    simpl. eauto. }
  intros accepted. subst accepted. rewrite <- Hlen. split; [exact Hok|].
  intros Hn. unfold bounding_box_xy.
  destruct (zip_star ps) as [|x [|y l]]; try reflexivity.
  exfalso. apply Hn. simpl. lia.
Qed.

(** X17: for 3D points the rectangle of [bounding_box_xy] is the bottom
    face of the box of [bounding_box] (its first four corners) with the
    third coordinate replaced by [0.0]. *)
Theorem bounding_box_xy_is_flat_bottom (ps : list (list A)) :
  ps <> [] ->
  Forall (fun p => length p = 3) ps ->
  exists box,
    bounding_box ps = Ok box
    /\ bounding_box_xy ps
       = Ok ((fun c => take 2 c ++ [zero]) <$> take 4 box).
Proof.
  intros Hne H3. destruct (points3_tuples ps H3) as [ts ->].
  destruct ts as [|t ts]; [exfalso; apply Hne; reflexivity|].
  unfold bounding_box, bounding_box_xy.
  rewrite zip_star_point3, !fmap_cons.
  cbn [take py_min py_max mbind result_bind].
  eexists. split; reflexivity.
Qed.

(** *** The box under a total order

    For coordinates that are totally ordered by [<] (integers; floats
    without NaN and without a zero of each sign) the minimum and the maximum
    of a list are unique, and the box depends on the input only through the
    extreme values. *)

Section total_order.

Hypothesis ltb_irrefl : forall a, ltb a a = false.
Hypothesis ltb_trans :
  forall a b c, ltb a b = true -> ltb b c = true -> ltb a c = true.
Hypothesis ltb_total :
  forall a b, ltb a b = false -> ltb b a = false -> a = b.

(** The eight corners, in the order of [bounding_box]. *)
Definition corners (min_x max_x min_y max_y min_z max_z : A)
    : list (list A) :=
  [[min_x; min_y; min_z];
   [max_x; min_y; min_z];
   [max_x; max_y; min_z];
   [min_x; max_y; min_z];
   [min_x; min_y; max_z];
   [max_x; min_y; max_z];
   [max_x; max_y; max_z];
   [min_x; max_y; max_z]].

Lemma is_min_unique m m' l l' :
  is_min m l -> is_min m' l' -> (forall x, x ∈ l <-> x ∈ l') -> m = m'.
Proof.
  intros [Hin Hall] [Hin' Hall'] Hsame.
  apply ltb_total.
  - apply Hall'. apply Hsame. exact Hin.
  - apply Hall. apply Hsame. exact Hin'.
Qed.

Lemma is_max_unique m m' l l' :
  is_max m l -> is_max m' l' -> (forall x, x ∈ l <-> x ∈ l') -> m = m'.
Proof.
  intros [Hin Hall] [Hin' Hall'] Hsame.
  apply ltb_total.
  - apply Hall. apply Hsame. exact Hin'.
  - apply Hall'. apply Hsame. exact Hin.
Qed.

Lemma bounding_box_extremes (ps : list (list A)) :
  ps <> [] ->
  Forall (fun p => length p = 3) ps ->
  exists min_x max_x min_y max_y min_z max_z,
    bounding_box ps = Ok (corners min_x max_x min_y max_y min_z max_z)
    /\ is_min min_x (coords 0 ps) /\ is_max max_x (coords 0 ps)
    /\ is_min min_y (coords 1 ps) /\ is_max max_y (coords 1 ps)
    /\ is_min min_z (coords 2 ps) /\ is_max max_z (coords 2 ps).
Proof.
  intros Hne H3. destruct (points3_tuples ps H3) as [ts ->].
  destruct ts as [|t ts]; [exfalso; apply Hne; reflexivity|].
  destruct (coords_point3 (t :: ts)) as (-> & -> & ->).
  unfold bounding_box. rewrite zip_star_point3, !fmap_cons.
  destruct (py_min_spec ltb_irrefl ltb_trans
              t.1.1 ((fun t => t.1.1) <$> ts)) as (min_x & -> & Hmin_x).
  destruct (py_max_spec ltb_irrefl ltb_trans
              t.1.1 ((fun t => t.1.1) <$> ts)) as (max_x & -> & Hmax_x).
  destruct (py_min_spec ltb_irrefl ltb_trans
              t.1.2 ((fun t => t.1.2) <$> ts)) as (min_y & -> & Hmin_y).
  destruct (py_max_spec ltb_irrefl ltb_trans
              t.1.2 ((fun t => t.1.2) <$> ts)) as (max_y & -> & Hmax_y).
  destruct (py_min_spec ltb_irrefl ltb_trans
              t.2 ((fun t => t.2) <$> ts)) as (min_z & -> & Hmin_z).
  destruct (py_max_spec ltb_irrefl ltb_trans
              t.2 ((fun t => t.2) <$> ts)) as (max_z & -> & Hmax_z).
  exists min_x, max_x, min_y, max_y, min_z, max_z.
  split; [reflexivity|]. repeat split; apply Hmin_x || apply Hmax_x
    || apply Hmin_y || apply Hmax_y || apply Hmin_z || apply Hmax_z.
Qed.

(** The box of a list whose extreme coordinates are known. *)
Lemma bounding_box_of_extremes (ps : list (list A))
    min_x max_x min_y max_y min_z max_z :
  ps <> [] ->
  Forall (fun p => length p = 3) ps ->
  is_min min_x (coords 0 ps) -> is_max max_x (coords 0 ps) ->
  is_min min_y (coords 1 ps) -> is_max max_y (coords 1 ps) ->
  is_min min_z (coords 2 ps) -> is_max max_z (coords 2 ps) ->
  bounding_box ps = Ok (corners min_x max_x min_y max_y min_z max_z).
Proof.
  intros Hne H3 Hx HX Hy HY Hz HZ.
  destruct (bounding_box_extremes ps Hne H3)
    as (mx & Mx & my & My & mz & Mz & -> & Hx' & HX' & Hy' & HY' & Hz' & HZ').
  rewrite (is_min_unique _ _ _ _ Hx Hx'), (is_max_unique _ _ _ _ HX HX'),
    (is_min_unique _ _ _ _ Hy Hy'), (is_max_unique _ _ _ _ HY HY'),
    (is_min_unique _ _ _ _ Hz Hz'), (is_max_unique _ _ _ _ HZ HZ');
    tauto.
Qed.

Lemma is_min_perm m (l l' : list A) : l ≡ₚ l' -> is_min m l -> is_min m l'.
Proof.
  intros HP [Hin Hall]. split.
  - rewrite <- HP. exact Hin.
  - intros a Ha. apply Hall. rewrite HP. exact Ha.
Qed.

Lemma is_max_perm m (l l' : list A) : l ≡ₚ l' -> is_max m l -> is_max m l'.
Proof.
  intros HP [Hin Hall]. split.
  - rewrite <- HP. exact Hin.
  - intros a Ha. apply Hall. rewrite HP. exact Ha.
Qed.

(** X18: the box of a list of 3D points does not depend on the order of the
    points. *)
Theorem bounding_box_permutation (ps qs : list (list A)) :
  ps <> [] ->
  Forall (fun p => length p = 3) ps ->
  ps ≡ₚ qs ->
  bounding_box qs = bounding_box ps.
Proof.
  intros Hne H3 HP.
  destruct (bounding_box_extremes ps Hne H3)
    as (mx & Mx & my & My & mz & Mz & -> & Hx & HX & Hy & HY & Hz & HZ).
  apply bounding_box_of_extremes.
  - intros ->. apply Permutation_nil_r in HP. contradiction.
  - rewrite <- HP. exact H3.
  - eapply is_min_perm; [|exact Hx]. unfold coords. rewrite HP. reflexivity.
  - eapply is_max_perm; [|exact HX]. unfold coords. rewrite HP. reflexivity.
  - eapply is_min_perm; [|exact Hy]. unfold coords. rewrite HP. reflexivity.
  - eapply is_max_perm; [|exact HY]. unfold coords. rewrite HP. reflexivity.
  - eapply is_min_perm; [|exact Hz]. unfold coords. rewrite HP. reflexivity.
  - eapply is_max_perm; [|exact HZ]. unfold coords. rewrite HP. reflexivity.
Qed.

Lemma is_min_pair m M (l : list A) :
  m ∈ l -> M ∈ l -> ltb M m = false ->
  (forall a, a ∈ l -> a = m \/ a = M) -> is_min m l.
Proof.
  intros Hm _ Hle Hall. split; [exact Hm|].
  intros a Ha. destruct (Hall a Ha) as [->| ->]; [apply ltb_irrefl|exact Hle].
Qed.

Lemma is_max_pair m M (l : list A) :
  m ∈ l -> M ∈ l -> ltb M m = false ->
  (forall a, a ∈ l -> a = m \/ a = M) -> is_max M l.
Proof.
  intros _ HM Hle Hall. split; [exact HM|].
  intros a Ha. destruct (Hall a Ha) as [->| ->]; [exact Hle|apply ltb_irrefl].
Qed.

(** X19: the box of a box is the box itself: [bounding_box] applied to the
    eight corners it returned gives the same eight corners. *)
Theorem bounding_box_idempotent (ps box : list (list A)) :
  Forall (fun p => length p = 3) ps ->
  bounding_box ps = Ok box ->
  bounding_box box = Ok box.
Proof.
  intros H3 Hbox.
  assert (Hne : ps <> []) by (intros ->; discriminate).
  destruct (bounding_box_extremes ps Hne H3)
    as (mx & Mx & my & My & mz & Mz & Hb & Hx & HX & Hy & HY & Hz & HZ).
  rewrite Hbox in Hb. injection Hb as ->.
  assert (Hxle : ltb Mx mx = false) by (apply HX, Hx).
  assert (Hyle : ltb My my = false) by (apply HY, Hy).
  assert (Hzle : ltb Mz mz = false) by (apply HZ, Hz).
  assert (Hmem : forall (a m M : A) l,
            a ∈ l -> Forall (fun c => c = m \/ c = M) l -> a = m \/ a = M).
  { intros a m M l Ha Hl. rewrite Forall_forall in Hl. auto. }
  apply bounding_box_of_extremes;
    try discriminate; try (repeat constructor);
    unfold corners, coords; cbn [omap list_omap lookup list_lookup].
  - apply (is_min_pair mx Mx); [apply list_elem_of_In; simpl; auto 10..|exact Hxle|].
    intros a Ha. apply (Hmem _ _ _ _ Ha).
    repeat (constructor; [solve [auto]|]). constructor.
  - apply (is_max_pair mx Mx); [apply list_elem_of_In; simpl; auto 10..|exact Hxle|].
    intros a Ha. apply (Hmem _ _ _ _ Ha).
    repeat (constructor; [solve [auto]|]). constructor.
  - apply (is_min_pair my My); [apply list_elem_of_In; simpl; auto 10..|exact Hyle|].
    intros a Ha. apply (Hmem _ _ _ _ Ha).
    repeat (constructor; [solve [auto]|]). constructor.
  - apply (is_max_pair my My); [apply list_elem_of_In; simpl; auto 10..|exact Hyle|].
    intros a Ha. apply (Hmem _ _ _ _ Ha).
    repeat (constructor; [solve [auto]|]). constructor.
  - apply (is_min_pair mz Mz); [apply list_elem_of_In; simpl; auto 10..|exact Hzle|].
    intros a Ha. apply (Hmem _ _ _ _ Ha).
    repeat (constructor; [solve [auto]|]). constructor.
  - apply (is_max_pair mz Mz); [apply list_elem_of_In; simpl; auto 10..|exact Hzle|].
    intros a Ha. apply (Hmem _ _ _ _ Ha).
    repeat (constructor; [solve [auto]|]). constructor.
Qed.

(** X20: a point inside or on the box adds nothing: the box of the points
    with one more point that lies between the corner (min,min,min) and the
    corner (max,max,max) of their box is the same box. *)
Theorem bounding_box_interior_point (ps box : list (list A)) lo hi p :
  Forall (fun p => length p = 3) ps ->
  length p = 3 ->
  bounding_box ps = Ok box ->
  box !! 0 = Some lo ->
  box !! 6 = Some hi ->
  inside lo hi p ->
  bounding_box (ps ++ [p]) = Ok box.
Proof.
  intros H3 Hp Hbox Hlo Hhi [Hge Hle].
  assert (Hne : ps <> []) by (intros ->; discriminate).
  destruct (bounding_box_extremes ps Hne H3)
    as (mx & Mx & my & My & mz & Mz & Hb & Hx & HX & Hy & HY & Hz & HZ).
  rewrite Hbox in Hb. injection Hb as ->.
  injection Hlo as <-. injection Hhi as <-.
  destruct p as [|px [|py [|pz [|? ?]]]]; try discriminate.
  apply Forall2_cons in Hge as [Hgx Hge].
  apply Forall2_cons in Hge as [Hgy Hge].
  apply Forall2_cons in Hge as [Hgz _].
  apply Forall2_cons in Hle as [Hlx Hle].
  apply Forall2_cons in Hle as [Hly Hle].
  apply Forall2_cons in Hle as [Hlz _].
  assert (Hmin : forall m c (l : list A),
            is_min m l -> ltb c m = false -> is_min m (l ++ [c])).
  { intros m c l [Hin Hall] Hc. split; [apply elem_of_app; left; exact Hin|].
    intros a Ha. apply elem_of_app in Ha as [Ha|Ha]; [auto|].
    apply list_elem_of_singleton in Ha as ->. exact Hc. }
  assert (Hmax : forall m c (l : list A),
            is_max m l -> ltb m c = false -> is_max m (l ++ [c])).
  { intros m c l [Hin Hall] Hc. split; [apply elem_of_app; left; exact Hin|].
    intros a Ha. apply elem_of_app in Ha as [Ha|Ha]; [auto|].
    apply list_elem_of_singleton in Ha as ->. exact Hc. }
  apply bounding_box_of_extremes.
  - destruct ps; discriminate.
  - apply Forall_app. split; [exact H3|]. repeat constructor.
  - unfold coords in *. rewrite omap_app. apply Hmin; assumption.
  - unfold coords in *. rewrite omap_app. apply Hmax; assumption.
  - unfold coords in *. rewrite omap_app. apply Hmin; assumption.
  - unfold coords in *. rewrite omap_app. apply Hmax; assumption.
  - unfold coords in *. rewrite omap_app. apply Hmin; assumption.
  - unfold coords in *. rewrite omap_app. apply Hmax; assumption.
Qed.

End total_order.

End bbox.
End BBox.

(** ** Colors: [compas/colors/color.py]

    The components of a color are Python numbers.  The class uses their
    comparisons [==] and [<], their arithmetic, four literals, and the
    functions [rgb_to_hls] and [hls_to_rgb] of the standard module
    [colorsys]; all of these are parameters.  The [colorsys] functions may
    raise (a division by zero on components outside 0-1, for instance). *)

Module Color.
Section color.

Context {A : Type}.

Variable eqb : A -> A -> bool.
Variable ltb : A -> A -> bool.
Variable add sub mul div : A -> A -> A.

(** The literals [0], [100], [0.0] and [1.0]. *)
Variable lit_0 lit_100 lit_0_0 lit_1_0 : A.

Variable rgb_to_hls : A -> A -> A -> result (A * A * A).
Variable hls_to_rgb : A -> A -> A -> result (A * A * A).

(** The attributes [r], [g], [b], [a] that [__init__] assigns. *)
Record Color : Type := mkColor {
  r : A;
  g : A;
  b : A;
  a : A
}.

(** [Color(red, green, blue, alpha=1.0)] *)
Definition init (red green blue : A) (alpha : option A) : Color :=
  mkColor red green blue (default lit_1_0 alpha).

(** The [data] property: a new dict with four keys. *)
Definition data (self : Color) : gmap string A :=
  <["alpha" := a self]>
    (<["blue" := b self]> (<["green" := g self]> (<["red" := r self]> ∅))).

(** [d[key]] *)
Definition getitem (d : gmap string A) (key : string) : result A :=
  match d !! key with
  | Some v => Ok v
  | None => Raise KeyError
  end.

(** The [data] setter: four assignments in a row; the ones made before a
    missing key stay. *)
Definition set_data (self : Color) (d : gmap string A) : result unit * Color :=
  match getitem d "red" with
  | Raise e => (Raise e, self)
  | Ok red =>
      let self := mkColor red (g self) (b self) (a self) in
      match getitem d "green" with
      | Raise e => (Raise e, self)
      | Ok green =>
          let self := mkColor (r self) green (b self) (a self) in
          match getitem d "blue" with
          | Raise e => (Raise e, self)
          | Ok blue =>
              let self := mkColor (r self) (g self) blue (a self) in
              match getitem d "alpha" with
              | Raise e => (Raise e, self)
              | Ok alpha => (Ok tt, mkColor (r self) (g self) (b self) alpha)
              end
          end
      end
  end.

(** [Color.from_data(data)] *)
Definition from_data (d : gmap string A) : result Color :=
  red ← getitem d "red";
  green ← getitem d "green";
  blue ← getitem d "blue";
  alpha ← getitem d "alpha";
  Ok (init red green blue (Some alpha)).

(** The [rgb] and [rgba] properties. *)
Definition rgb (self : Color) : A * A * A := (r self, g self, b self).

Definition rgba (self : Color) : A * A * A * A :=
  (r self, g self, b self, a self).

(** The [hls] property: [colorsys.rgb_to_hls( *self.rgb)]. *)
Definition hls (self : Color) : result (A * A * A) :=
  let '(red, green, blue) := rgb self in rgb_to_hls red green blue.

(** [__len__] *)
Definition len (self : Color) : nat := 3.

(** [__iter__]: the items that [iter(self.rgb)] yields. *)
Definition iter (self : Color) : list A :=
  let '(red, green, blue) := rgb self in [red; green; blue].

(** [all(a == b for a, b in zip(self, other))] for an iterable [other]
    yielding the items [other_items]. *)
Definition eq_items (self : Color) (other_items : list A) : bool :=
  forallb (fun p => eqb p.1 p.2) (zip (iter self) other_items).

(** [self == other] for another color. *)
Definition eq (self other : Color) : bool := eq_items self (iter other).

(** [min(x, y)] and [max(x, y)] of two numbers: the first one unless the
    second is smaller, respectively greater. *)
Definition min2 (x y : A) : A := if ltb y x then y else x.

Definition max2 (x y : A) : A := if ltb x y then y else x.

(** [factor > 100 or factor < 0] *)
Definition out_of_range (factor : A) : bool :=
  ltb lit_100 factor || ltb factor lit_0.

(** The three assignments [self.r = r; self.g = g; self.b = b]. *)
Definition set_rgb (self : Color) (c : A * A * A) : Color :=
  let '(red, green, blue) := c in mkColor red green blue (a self).

(** [lighten(factor)]: the outcome and the color after the call. *)
Definition lighten (self : Color) (factor : A) : result unit * Color :=
  if out_of_range factor then (Raise ValueError, self)
  else
    let factor := add lit_1_0 (div factor lit_100) in
    match hls self with
    | Raise e => (Raise e, self)
    | Ok (h, l, s) =>
        match hls_to_rgb h (min2 lit_1_0 (mul l factor)) s with
        | Raise e => (Raise e, self)
        | Ok c => (Ok tt, set_rgb self c)
        end
    end.

(** [darken(factor)] *)
Definition darken (self : Color) (factor : A) : result unit * Color :=
  if out_of_range factor then (Raise ValueError, self)
  else
    let factor := sub lit_1_0 (div factor lit_100) in
    match hls self with
    | Raise e => (Raise e, self)
    | Ok (h, l, s) =>
        match hls_to_rgb h (max2 lit_0_0 (mul l factor)) s with
        | Raise e => (Raise e, self)
        | Ok c => (Ok tt, set_rgb self c)
        end
    end.

(** [invert()] *)
Definition invert (self : Color) : Color :=
  mkColor (sub lit_1_0 (r self)) (sub lit_1_0 (g self))
    (sub lit_1_0 (b self)) (a self).

(** [desaturate(factor)] *)
Definition desaturate (self : Color) (factor : A) : result unit * Color :=
  if out_of_range factor then (Raise ValueError, self)
  else
    let factor := sub lit_1_0 (div factor lit_100) in
    match hls self with
    | Raise e => (Raise e, self)
    | Ok (h, l, s) =>
        match hls_to_rgb h l (max2 lit_0_0 (mul s factor)) with
        | Raise e => (Raise e, self)
        | Ok c => (Ok tt, set_rgb self c)
        end
    end.

(** [x <= y] on numbers that are ordered: [y] is not below [x]. *)
Definition le (x y : A) : Prop := ltb y x = false.

(** [factor] is in the range 0-100. *)
Definition in_range (factor : A) : Prop := le lit_0 factor /\ le factor lit_100.

(** *** Serialization *)

Lemma getitem_data (self : Color) :
  getitem (data self) "red" = Ok (r self)
  /\ getitem (data self) "green" = Ok (g self)
  /\ getitem (data self) "blue" = Ok (b self)
  /\ getitem (data self) "alpha" = Ok (a self).
Proof.
  unfold getitem, data.
  rewrite !lookup_insert_ne by discriminate.
  rewrite lookup_insert_eq.
  rewrite (lookup_insert_ne _ "alpha" "green"), (lookup_insert_ne _ "blue" "green")
    by discriminate.
  rewrite lookup_insert_eq.
  rewrite (lookup_insert_ne _ "alpha" "blue") by discriminate.
  rewrite !lookup_insert_eq. auto.
Qed.

Lemma from_data_data (self : Color) : from_data (data self) = Ok self.
Proof.
  unfold from_data.
  destruct (getitem_data self) as (-> & -> & -> & ->).
  destruct self. reflexivity.
Qed.

(** C6: [Color.from_data(c.data)] is a color with the red, green, blue and
    alpha of [c]. *)
Theorem from_data_roundtrip (c : Color) :
  exists c',
    from_data (data c) = Ok c'
    /\ r c' = r c /\ g c' = g c /\ b c' = b c /\ a c' = a c.
Proof. exists c. rewrite from_data_data. auto. Qed.

(** *** Equality, length, iteration *)

Lemma eq_unfold (c1 c2 : Color) :
  eq c1 c2 = eqb (r c1) (r c2) && eqb (g c1) (g c2) && eqb (b c1) (b c2).
Proof.
  unfold eq, eq_items, iter, rgb. simpl.
  rewrite andb_true_r, andb_assoc. reflexivity.
Qed.

(** C8: equality of colors is determined by red, green and blue alone:
    [c1 == c2] is true exactly when the three pairs of components are equal
    ([==]), so colors with equal red, green and blue are equal, and colors
    that differ in one of them are not; the alphas play no part, [c1 == c2]
    stays what it is when they are replaced by any others.  [len(c)] is 3,
    and iterating over a color yields its red, green and blue, not its
    alpha. *)
Theorem eq_by_rgb_only (c1 c2 : Color) :
  eq c1 c2 = eqb (r c1) (r c2) && eqb (g c1) (g c2) && eqb (b c1) (b c2)
  /\ (eq c1 c2 = true
      <-> eqb (r c1) (r c2) = true /\ eqb (g c1) (g c2) = true
          /\ eqb (b c1) (b c2) = true)
  /\ (forall a1 a2,
        eq (mkColor (r c1) (g c1) (b c1) a1) (mkColor (r c2) (g c2) (b c2) a2)
        = eq c1 c2)
  /\ len c1 = 3
  /\ iter c1 = [r c1; g c1; b c1]
  /\ length (iter c1) = len c1.
Proof.
  split; [apply eq_unfold|]. split; [|split].
  - rewrite eq_unfold, !andb_true_iff. split.
    + intros [[Hr Hg] Hb]. auto.
    + intros (Hr & Hg & Hb). auto.
  - intros a1 a2. rewrite !eq_unfold. reflexivity.
  - repeat split.
Qed.

(** Where [==] is reflexive (no NaN among the components), colors with the
    same red, green and blue are equal. *)
Corollary eq_same_rgb (c1 c2 : Color) :
  (forall x, eqb x x = true) ->
  r c1 = r c2 -> g c1 = g c2 -> b c1 = b c2 -> eq c1 c2 = true.
Proof.
  intros Hrefl Hr Hg Hb. rewrite eq_unfold, Hr, Hg, Hb, !Hrefl. reflexivity.
Qed.

(** *** The factor check of [lighten], [darken] and [desaturate] *)

Lemma out_of_range_spec factor :
  out_of_range factor = true <-> ~ in_range factor.
Proof.
  unfold out_of_range, in_range, le.
  destruct (ltb lit_100 factor), (ltb factor lit_0); simpl;
    (split;
     [ try discriminate; intros _ [H1 H2]; discriminate
     | intros Hn; try reflexivity; exfalso; apply Hn; split; reflexivity ]).
Qed.

Section standard_library.

(** [colorsys] raises no [ValueError]. *)
Hypothesis rgb_to_hls_no_ValueError :
  forall x y z, rgb_to_hls x y z <> Raise ValueError.
Hypothesis hls_to_rgb_no_ValueError :
  forall x y z, hls_to_rgb x y z <> Raise ValueError.

Lemma lighten_check self factor :
  ((lighten self factor).1 = Raise ValueError <-> ~ in_range factor)
  /\ (forall e, (lighten self factor).1 = Raise e ->
        (lighten self factor).2 = self).
Proof.
  rewrite <- out_of_range_spec. unfold lighten, hls, rgb.
  destruct (out_of_range factor); simpl.
  - split; [split; reflexivity|reflexivity].
  - destruct (rgb_to_hls (r self) (g self) (b self)) as [[[h l] s]|e] eqn:E1.
    + destruct (hls_to_rgb h _ s) as [c|e] eqn:E2; simpl.
      * split; [split; discriminate|discriminate].
      * split; [|reflexivity]. split; [|discriminate].
        intros [= ->]. exfalso. eapply hls_to_rgb_no_ValueError, E2.
    + simpl. split; [|reflexivity]. split; [|discriminate].
      intros [= ->]. exfalso. eapply rgb_to_hls_no_ValueError, E1.
Qed.

Lemma darken_check self factor :
  ((darken self factor).1 = Raise ValueError <-> ~ in_range factor)
  /\ (forall e, (darken self factor).1 = Raise e ->
        (darken self factor).2 = self).
Proof.
  rewrite <- out_of_range_spec. unfold darken, hls, rgb.
  destruct (out_of_range factor); simpl.
  - split; [split; reflexivity|reflexivity].
  - destruct (rgb_to_hls (r self) (g self) (b self)) as [[[h l] s]|e] eqn:E1.
    + destruct (hls_to_rgb h _ s) as [c|e] eqn:E2; simpl.
      * split; [split; discriminate|discriminate].
      * split; [|reflexivity]. split; [|discriminate].
        intros [= ->]. exfalso. eapply hls_to_rgb_no_ValueError, E2.
    + simpl. split; [|reflexivity]. split; [|discriminate].
      intros [= ->]. exfalso. eapply rgb_to_hls_no_ValueError, E1.
Qed.

Lemma desaturate_check self factor :
  ((desaturate self factor).1 = Raise ValueError <-> ~ in_range factor)
  /\ (forall e, (desaturate self factor).1 = Raise e ->
        (desaturate self factor).2 = self).
Proof.
  rewrite <- out_of_range_spec. unfold desaturate, hls, rgb.
  destruct (out_of_range factor); simpl.
  - split; [split; reflexivity|reflexivity].
  - destruct (rgb_to_hls (r self) (g self) (b self)) as [[[h l] s]|e] eqn:E1.
    + destruct (hls_to_rgb h l _) as [c|e] eqn:E2; simpl.
      * split; [split; discriminate|discriminate].
      * split; [|reflexivity]. split; [|discriminate].
        intros [= ->]. exfalso. eapply hls_to_rgb_no_ValueError, E2.
    + simpl. split; [|reflexivity]. split; [|discriminate].
      intros [= ->]. exfalso. eapply rgb_to_hls_no_ValueError, E1.
Qed.

(** C9: each of [lighten], [darken] and [desaturate] raises [ValueError]
    exactly when the factor is not in the range 0-100, and a call that raises
    leaves the color as it was. *)
Theorem factor_out_of_range_raises (c : Color) (factor : A) :
  Forall (fun method : Color -> A -> result unit * Color =>
            ((method c factor).1 = Raise ValueError <-> ~ in_range factor)
            /\ (forall e, (method c factor).1 = Raise e ->
                  (method c factor).2 = c))
    [lighten; darken; desaturate].
Proof.
  repeat constructor;
    solve [apply lighten_check | apply darken_check | apply desaturate_check].
Qed.

End standard_library.

(** *** More on colors *)

(** X21: assigning the [data] of a color [c] to another color makes it
    [c]: all four components are taken over, whatever they were. *)
Theorem set_data_copies (self c : Color) :
  set_data self (data c) = (Ok tt, c).
Proof.
  unfold set_data.
  destruct (getitem_data c) as (-> & -> & -> & ->).
  destruct c. reflexivity.
Qed.

(** X22: the [data] setter is not atomic.  It assigns red, green, blue and
    alpha in this order and stops with [KeyError] at the first key that is
    missing: the components assigned before stay assigned, the others keep
    their old values. *)
Theorem set_data_stops_at_missing_key (self : Color) (d : gmap string A) :
  (d !! "red" = None -> set_data self d = (Raise KeyError, self))
  /\ (forall x, d !! "red" = Some x -> d !! "green" = None ->
      set_data self d
      = (Raise KeyError, mkColor x (g self) (b self) (a self)))
  /\ (forall x y, d !! "red" = Some x -> d !! "green" = Some y ->
      d !! "blue" = None ->
      set_data self d = (Raise KeyError, mkColor x y (b self) (a self)))
  /\ (forall x y z, d !! "red" = Some x -> d !! "green" = Some y ->
      d !! "blue" = Some z -> d !! "alpha" = None ->
      set_data self d = (Raise KeyError, mkColor x y z (a self)))
  /\ (forall x y z t, d !! "red" = Some x -> d !! "green" = Some y ->
      d !! "blue" = Some z -> d !! "alpha" = Some t ->
      set_data self d = (Ok tt, mkColor x y z t)).
Proof.
  unfold set_data, getitem. repeat split.
  - intros ->. reflexivity.
  - intros x -> ->. reflexivity.
  - intros x y -> -> ->. reflexivity.
  - intros x y z -> -> -> ->. reflexivity.
  - intros x y z t -> -> -> ->. reflexivity.
Qed.

(** X23: a color compares equal to every sequence that agrees with its red,
    green and blue at the positions the two have in common.  So it equals
    the empty sequence, and whatever a sequence has after its third item is
    not looked at. *)
Theorem eq_items_common_positions (self : Color) (other : list A) :
  (eq_items self other = true
   <-> forall i x y, iter self !! i = Some x -> other !! i = Some y ->
         eqb x y = true)
  /\ eq_items self [] = true
  /\ eq_items self other = eq_items self (take 3 other).
Proof.
  unfold eq_items, iter, rgb. split; [|split].
  - destruct other as [|y0 [|y1 [|y2 rest]]]; simpl.
    + split; [|reflexivity]. intros _ i x y _ Hy.
      rewrite lookup_nil in Hy. discriminate.
    + rewrite andb_true_r. split.
      * intros H0 [|i] x y Hx Hy; simpl in *; [congruence|].
        rewrite lookup_nil in Hy. discriminate.
      * intros Hall. exact (Hall 0 _ _ eq_refl eq_refl).
    + rewrite andb_true_r, andb_true_iff. split.
      * intros [H0 H1] [|[|i]] x y Hx Hy; simpl in *; try congruence.
        rewrite lookup_nil in Hy. discriminate.
      * intros Hall. split.
        -- exact (Hall 0 _ _ eq_refl eq_refl).
        -- exact (Hall 1 _ _ eq_refl eq_refl).
    + rewrite andb_true_r, !andb_true_iff. split.
      * intros (H0 & H1 & H2) [|[|[|i]]] x y Hx Hy; simpl in *;
          try congruence.
        rewrite lookup_nil in Hx. discriminate.
      * intros Hall. repeat split.
        -- exact (Hall 0 _ _ eq_refl eq_refl).
        -- exact (Hall 1 _ _ eq_refl eq_refl).
        -- exact (Hall 2 _ _ eq_refl eq_refl).
  - reflexivity.
  - destruct other as [|y0 [|y1 [|y2 rest]]]; reflexivity.
Qed.

Lemma set_rgb_alpha (self : Color) c : a (set_rgb self c) = a self.
Proof. destruct c as [[? ?] ?]. reflexivity. Qed.

(** X24: no method changes the transparency: after [lighten], [darken] or
    [desaturate], whether they return or raise, and after [invert], alpha
    is what it was. *)
Theorem methods_keep_alpha (c : Color) (factor : A) :
  Forall (fun method : Color -> A -> result unit * Color =>
            a (method c factor).2 = a c)
    [lighten; darken; desaturate]
  /\ a (invert c) = a c.
Proof.
  split; [|reflexivity].
  repeat constructor; unfold lighten, darken, desaturate;
    (destruct (out_of_range factor); [reflexivity|]);
    (destruct (hls c) as [[[h l] s]|e]; [|reflexivity]);
    (destruct (hls_to_rgb _ _ _) as [t|e]; [|reflexivity]);
    apply set_rgb_alpha.
Qed.

Lemma rgb_set_rgb (self : Color) t : rgb (set_rgb self t) = t.
Proof. destruct t as [[? ?] ?]. reflexivity. Qed.

(** X26: the adjusted value is clamped before it goes back to [colorsys]:
    the lightness that [lighten] passes to [hls_to_rgb] is never above
    [1.0], the lightness that [darken] passes and the saturation that
    [desaturate] passes are never below [0.0]; hue and the other component
    are passed on as [rgb_to_hls] gave them, and the new red, green and blue
    are what [hls_to_rgb] returns. *)
Theorem adjustments_are_clamped (c c' : Color) (factor : A) :
  (forall x, ltb x x = false) ->
  (forall x y z, ltb x y = true -> ltb y z = true -> ltb x z = true) ->
  (lighten c factor = (Ok tt, c') ->
   exists h l s l',
     hls c = Ok (h, l, s) /\ ltb lit_1_0 l' = false
     /\ hls_to_rgb h l' s = Ok (rgb c'))
  /\ (darken c factor = (Ok tt, c') ->
      exists h l s l',
        hls c = Ok (h, l, s) /\ ltb l' lit_0_0 = false
        /\ hls_to_rgb h l' s = Ok (rgb c'))
  /\ (desaturate c factor = (Ok tt, c') ->
      exists h l s s',
        hls c = Ok (h, l, s) /\ ltb s' lit_0_0 = false
        /\ hls_to_rgb h l s' = Ok (rgb c')).
Proof.
  intros Hirr Htr.
  assert (Hasym : forall x y, ltb x y = true -> ltb y x = false).
  { intros x y Hxy. destruct (ltb y x) eqn:Hyx; [|reflexivity].
    rewrite <- (Hirr x). symmetry. exact (Htr _ _ _ Hxy Hyx). }
  assert (Hmin : forall x, ltb lit_1_0 (min2 lit_1_0 x) = false).
  { intros x. unfold min2. destruct (ltb x lit_1_0) eqn:E; [auto|apply Hirr]. }
  assert (Hmax : forall x, ltb (max2 lit_0_0 x) lit_0_0 = false).
  { intros x. unfold max2. destruct (ltb lit_0_0 x) eqn:E; [auto|apply Hirr]. }
  unfold lighten, darken, desaturate.
  destruct (out_of_range factor); [repeat split; discriminate|].
  destruct (hls c) as [[[h l] s]|e]; [|repeat split; discriminate].
  repeat split.
  - destruct (hls_to_rgb h _ s) as [t|e] eqn:E; [|discriminate].
    intros [= <-]. eexists h, l, s, _. rewrite rgb_set_rgb. eauto.
  - destruct (hls_to_rgb h _ s) as [t|e] eqn:E; [|discriminate].
    intros [= <-]. eexists h, l, s, _. rewrite rgb_set_rgb. eauto.
  - destruct (hls_to_rgb h l _) as [t|e] eqn:E; [|discriminate].
    intros [= <-]. eexists h, l, s, _. rewrite rgb_set_rgb. eauto.
Qed.

End color.

(** *** The color ramp [from_i] *)

Section ramp.

Context {A : Type}.

Variable eqb : A -> A -> bool.
Variable ltb : A -> A -> bool.
Variable add sub mul div : A -> A -> A.

(** [int(x)] *)
Variable int : A -> A.

(** The literals [0], [4], [255], and [0.0], [0.25], [0.5], [0.75], [1.0],
    [255.0]. *)
Variable lit_0 lit_4 lit_255 : A.
Variable lit_0_0 lit_0_25 lit_0_5 lit_0_75 lit_1_0 lit_255_0 : A.

(** [Color.from_i(i)].  A chained comparison [x < i < y] is [x < i and
    i < y]; [255 * 4 * x] is [(255 * 4) * x]. *)
Definition from_i (i : A) : Color :=
  let '(red, green, blue) :=
    if eqb i lit_0_0 then (lit_0, lit_0, lit_255)
    else if ltb lit_0_0 i && ltb i lit_0_25 then
      (lit_0, int (mul lit_255 (mul lit_4 i)), lit_255)
    else if eqb i lit_0_25 then (lit_0, lit_255, lit_255)
    else if ltb lit_0_25 i && ltb i lit_0_5 then
      (lit_0, lit_255,
       int (sub lit_255 (mul (mul lit_255 lit_4) (sub i lit_0_25))))
    else if eqb i lit_0_5 then (lit_0, lit_255, lit_0)
    else if ltb lit_0_5 i && ltb i lit_0_75 then
      (int (add lit_0 (mul (mul lit_255 lit_4) (sub i lit_0_5))),
       lit_255, lit_0)
    else if eqb i lit_0_75 then (lit_255, lit_255, lit_0)
    else if ltb lit_0_75 i && ltb i lit_1_0 then
      (lit_255,
       int (sub lit_255 (mul (mul lit_255 lit_4) (sub i lit_0_75))),
       lit_0)
    else if eqb i lit_1_0 then (lit_255, lit_0, lit_0)
    else (lit_0, lit_0, lit_0) in
  init lit_1_0 (div red lit_255_0) (div green lit_255_0)
    (div blue lit_255_0) None.

(** What [==] and [<] of numbers satisfy, and the order of the literals. *)
Hypothesis eqb_not_ltb :
  forall x y, eqb x y = true -> ltb x y = false /\ ltb y x = false.
Hypothesis ltb_irrefl : forall x, ltb x x = false.
Hypothesis ltb_trans :
  forall x y z, ltb x y = true -> ltb y z = true -> ltb x z = true.
Hypothesis quarter_positive : ltb lit_0_0 lit_0_25 = true.
Hypothesis half_above_quarter : ltb lit_0_25 lit_0_5 = true.
Hypothesis three_quarters_above_half : ltb lit_0_5 lit_0_75 = true.
Hypothesis one_above_three_quarters : ltb lit_0_75 lit_1_0 = true.

Lemma ltb_asym x y : ltb x y = true -> ltb y x = false.
Proof.
  intros Hxy. destruct (ltb y x) eqn:Hyx; [|reflexivity].
  rewrite <- (ltb_irrefl x). symmetry. eapply ltb_trans; eassumption.
Qed.

Lemma below_not_eqb i x : ltb i x = true -> eqb i x = false.
Proof.
  intros Hlt. destruct (eqb i x) eqn:E; [|reflexivity].
  destruct (eqb_not_ltb _ _ E) as [Hn _]. congruence.
Qed.

Lemma above_not_eqb i x : ltb x i = true -> eqb i x = false.
Proof.
  intros Hlt. destruct (eqb i x) eqn:E; [|reflexivity].
  destruct (eqb_not_ltb _ _ E) as [_ Hn]. congruence.
Qed.

(** X25: [from_i] does not reject a number outside the range 0-1 and does
    not clamp it to the ends of the ramp (blue at 0, red at 1): every [i]
    below [0.0] and every [i] above [1.0] gives black. *)
Theorem from_i_out_of_range_is_black (i : A) :
  ltb i lit_0_0 = true \/ ltb lit_1_0 i = true ->
  from_i i
  = mkColor (div lit_0 lit_255_0) (div lit_0 lit_255_0)
      (div lit_0 lit_255_0) lit_1_0.
Proof.
  intros [Hlow|Hhigh].
  - assert (H25 : ltb i lit_0_25 = true) by eauto using ltb_trans.
    assert (H50 : ltb i lit_0_5 = true) by eauto using ltb_trans.
    assert (H75 : ltb i lit_0_75 = true) by eauto using ltb_trans.
    assert (H100 : ltb i lit_1_0 = true) by eauto using ltb_trans.
    unfold from_i.
    rewrite !below_not_eqb by assumption.
    rewrite (ltb_asym _ _ Hlow), (ltb_asym _ _ H25), (ltb_asym _ _ H50),
      (ltb_asym _ _ H75).
    reflexivity.
  - assert (H75 : ltb lit_0_75 i = true) by eauto using ltb_trans.
    assert (H50 : ltb lit_0_5 i = true) by eauto using ltb_trans.
    assert (H25 : ltb lit_0_25 i = true) by eauto using ltb_trans.
    assert (H0 : ltb lit_0_0 i = true) by eauto using ltb_trans.
    unfold from_i.
    rewrite !above_not_eqb by assumption.
    rewrite (ltb_asym _ _ Hhigh), (ltb_asym _ _ H75), (ltb_asym _ _ H50),
      (ltb_asym _ _ H25), !andb_false_r.
    reflexivity.
Qed.

End ramp.
End Color.

(** ** Instances

    The models above at concrete parameters: items with a plain [name]
    attribute, 4x4 integer matrices for the transformations, integer
    coordinates and integer color components. *)

Module Instances.

(** *** A registry with [BaseObject] as a handler *)

Definition BaseObject_type
    : SceneObject.value -> gmap string SceneObject.value ->
      gmap positive SceneObject.named_item ->
      result SceneObject.BaseObject * gmap positive SceneObject.named_item :=
  SceneObject.new SceneObject.plain_set_name.


Definition cone : SceneObject.value := SceneObject.VObj "Cone" 1.

Definition cone_store : gmap positive SceneObject.named_item :=
  {[ 1%positive := SceneObject.mkNamedItem (SceneObject.VStr "cone") ]}.

Definition cone_object : SceneObject.BaseObject :=
  SceneObject.mkBaseObject cone SceneObject.VNone SceneObject.VNone
    SceneObject.VNone (SceneObject.VBool true).

(** [Cone] is a [Shape]; nothing else is a subclass of anything else. *)
Definition issubclass (c d : string) : Prop :=
  c = d \/ (c = "Cone" /\ d = "Shape").

(** *** 4x4 integer matrices and points in homogeneous coordinates *)

Definition matrix := list (list Z).

Definition identity : matrix :=
  [[1; 0; 0; 0]; [0; 1; 0; 0]; [0; 0; 1; 0]; [0; 0; 0; 1]]%Z.

Definition getitem (M : matrix) (i j : nat) : Z :=
  default 0%Z (M !! i ≫= fun row => row !! j).

Definition setitem (i j : nat) (v : Z) (M : matrix) : matrix :=
  <[i := <[j := v]> (default [] (M !! i))]> M.

Definition dot (u v : list Z) : Z :=
  foldr Z.add 0%Z (zip_with Z.mul u v).

Definition column (j : nat) (M : matrix) : list Z :=
  (fun row => default 0%Z (row !! j)) <$> M.

Definition multiply (M N : matrix) : matrix :=
  (fun row => (fun j => dot row (column j N)) <$> seq 0 4) <$> M.

Definition transform_point (M : matrix) (p : list Z) : list Z :=
  (fun row => dot row p) <$> M.

Definition translation (x y z : Z) : matrix :=
  [[1; 0; 0; x]; [0; 1; 0; y]; [0; 0; 1; z]; [0; 0; 0; 1]]%Z.

(** The artist adds the shape to the document under a guid of its own. *)
Definition point_artist_draw (s : list Z) (d : gmap positive (list Z))
    : positive * gmap positive (list Z) :=
  let g := Pos.of_succ_nat (size d) in (g, <[g := s]> d).

Abbreviation point_world :=
  (@ShapeObject.world matrix (list Z) (list Z) positive _ _).

Definition point_run (cs : list (@ShapeObject.call matrix (list Z)))
    (w : point_world) : result unit * point_world :=
  ShapeObject.run multiply getitem identity setitem id transform_point
    transform_point point_artist_draw cs w.

Definition point_update (w : point_world) : result unit * point_world :=
  ShapeObject.update transform_point w.

Definition origin_world : point_world :=
  ShapeObject.mkWorld (ShapeObject.init true) [0; 0; 0; 1]%Z ∅.

(** *** The registry *)


(** C3, the counterexample: [Cone] is registered with [BaseObject] as its
    handler, and [build(cone, color=None)] does not succeed: [__init__] has
    no parameter [color] and the call raises [TypeError]. *)
Lemma build_registered_raises :
  is_Some (Registry.register "Cone" BaseObject_type ∅
             !! SceneObject.type_of cone)
  /\ Registry.build SceneObject.type_of
       (Registry.register "Cone" BaseObject_type ∅) cone
       {[ "color" := SceneObject.VNone ]} cone_store
     = (Raise TypeError, cone_store)
  /\ ~ ((exists obj st,
          Registry.build SceneObject.type_of
            (Registry.register "Cone" BaseObject_type ∅) cone
            {[ "color" := SceneObject.VNone ]} cone_store
          = (Ok obj, st))
       <-> is_Some (Registry.register "Cone" BaseObject_type ∅
                      !! SceneObject.type_of cone)).
Proof.
  assert (Hreg : is_Some (Registry.register "Cone" BaseObject_type ∅
                            !! SceneObject.type_of cone)).
  { unfold Registry.register. simpl. rewrite lookup_insert_eq. eauto. }
  assert (Hraise : Registry.build SceneObject.type_of
                     (Registry.register "Cone" BaseObject_type ∅) cone
                     {[ "color" := SceneObject.VNone ]} cone_store
                   = (Raise TypeError, cone_store)).
  { vm_compute. reflexivity. }
  split; [exact Hreg|]. split; [exact Hraise|].
  intros [_ Hif]. destruct (Hif Hreg) as (obj & st & Hok).
  rewrite Hraise in Hok. discriminate.
Qed.

(** *** Scene objects *)

Lemma name_is_alias_of_item_name_witness :
  SceneObject._item cone_object = SceneObject.VObj "Cone" 1
  /\ cone_store !! 1%positive
     = Some (SceneObject.mkNamedItem (SceneObject.VStr "cone"))
  /\ SceneObject.name SceneObject.plain_get_name cone_object cone_store
     = Ok (SceneObject.VStr "cone").
Proof.
  split; [reflexivity|]. split; [reflexivity|].
  exact (proj1 (SceneObject.name_is_alias_of_item_name
                  SceneObject.plain_get_name SceneObject.plain_set_name
                  cone_object (SceneObject.VStr "apex") cone_store "Cone"
                  1%positive
                  (SceneObject.mkNamedItem (SceneObject.VStr "cone"))
                  eq_refl eq_refl)).
Defined.

(** *** Shape objects *)

(** C2: on a drawn shape object, assigning a matrix, [update] and
    [synchronize] batch the matrix and then apply it to the shape (the point
    has moved by the translation and the batch is empty), but the batch is
    now a plain list: the next [update] with the matrix still pending raises
    [AttributeError], pushes nothing and transforms nothing. *)
Theorem update_after_synchronize_raises :
  exists w,
    point_run [ShapeObject.CDraw;
               ShapeObject.CSetMatrix (translation 1 2 3);
               ShapeObject.CUpdate;
               ShapeObject.CSynchronize] origin_world = (Ok tt, w)
    /\ ShapeObject.shape w = [1; 2; 3; 1]%Z
    /\ ShapeObject._matrix (ShapeObject.self w) = Some (translation 1 2 3)
    /\ ShapeObject._stack (ShapeObject.self w) = ShapeObject.PyList []
    /\ point_update w = (Raise AttributeError, w).
Proof.
  eexists. split; [vm_compute; reflexivity|].
  repeat split.
Qed.

Lemma synchronize_breaks_later_updates_witness :
  ShapeObject.reachable multiply getitem identity setitem id transform_point
    transform_point point_artist_draw origin_world
  /\ exists e w,
       point_run [ShapeObject.CUpdate; ShapeObject.CSynchronize;
                  ShapeObject.CUpdate] origin_world = (Raise e, w).
Proof.
  assert (Hr : ShapeObject.reachable multiply getitem identity setitem id
                 transform_point transform_point point_artist_draw
                 origin_world).
  { apply ShapeObject.reachable_init. }
  split; [exact Hr|].
  exact (proj2 (proj2 (ShapeObject.synchronize_breaks_later_updates
                         multiply getitem identity setitem id transform_point
                         transform_point point_artist_draw origin_world Hr))).
Defined.

(** *** Bounding boxes of integer points *)

Definition three_points : list (list Z) :=
  [[0; 5; 2]; [1; -2; 3]; [4; 4; 4]]%Z.

Lemma Zltb_irrefl (x : Z) : (x <? x)%Z = false.
Proof. apply Z.ltb_irrefl. Defined.

Lemma Zltb_trans (x y z : Z) :
  (x <? y)%Z = true -> (y <? z)%Z = true -> (x <? z)%Z = true.
Proof. rewrite !Z.ltb_lt. apply Z.lt_trans. Defined.

Lemma bounding_box_corners_witness :
  three_points <> []
  /\ Forall (fun p => length p = 3) three_points
  /\ exists lo hi, Forall (BBox.inside Z.ltb lo hi) three_points.
Proof.
  assert (Hne : three_points <> []) by discriminate.
  assert (H3 : Forall (fun p => length p = 3) three_points).
  { repeat constructor. }
  split; [exact Hne|]. split; [exact H3|].
  destruct (BBox.bounding_box_corners Z.ltb Zltb_irrefl Zltb_trans
              three_points Hne H3)
    as (min_x & max_x & min_y & max_y & min_z & max_z & _ & _ & _ & _ & _
        & _ & _ & Hin).
  exists [min_x; min_y; min_z], [max_x; max_y; max_z]. exact Hin.
Defined.

Lemma bounding_box_xy_ignores_z_witness :
  three_points <> []
  /\ Forall2 BBox.same_xy three_points [[0; 5; 9]; [1; -2; 9]; [4; 4; 9]]%Z
  /\ BBox.bounding_box_xy Z.ltb 0%Z three_points
     = BBox.bounding_box_xy Z.ltb 0%Z [[0; 5; 9]; [1; -2; 9]; [4; 4; 9]]%Z.
Proof.
  assert (Hne : three_points <> []) by discriminate.
  assert (Hxy : Forall2 BBox.same_xy three_points
                  [[0; 5; 9]; [1; -2; 9]; [4; 4; 9]]%Z).
  { repeat constructor; unfold BBox.same_xy; eauto 10. }
  split; [exact Hne|]. split; [exact Hxy|].
  exact (proj1 (BBox.bounding_box_xy_ignores_z Z.ltb 0%Z three_points _
                  Hne Hxy)).
Defined.

(** *** Colors with integer components *)

Definition opaque_red : Color.Color := Color.mkColor 1%Z 0%Z 0%Z 1%Z.

(** A stand-in for [colorsys]: the conversions are the identity. *)
Definition same_triple (x y z : Z) : result (Z * Z * Z) := Ok (x, y, z).


Lemma factor_out_of_range_raises_witness :
  (forall x y z, same_triple x y z <> Raise ValueError)
  /\ ((Color.lighten Z.ltb Z.add Z.mul Z.div 0%Z 100%Z 1%Z
         same_triple same_triple opaque_red 150%Z).1 = Raise ValueError
      <-> ~ Color.in_range Z.ltb 0%Z 100%Z 150%Z).
Proof.
  assert (Hno : forall x y z, same_triple x y z <> Raise ValueError).
  { intros x y z. discriminate. }
  split; [exact Hno|].
  exact (proj1 (Forall_inv
                  (Color.factor_out_of_range_raises Z.ltb Z.add Z.sub Z.mul
                     Z.div 0%Z 100%Z 0%Z 1%Z same_triple same_triple
                     Hno Hno opaque_red 150%Z))).
Defined.

(** *** More instances: the registry and scene objects *)

Definition sphere : SceneObject.value := SceneObject.VObj "Sphere" 2.

Lemma register_keeps_other_types_witness :
  SceneObject.type_of sphere <> "Cone"
  /\ Registry.build SceneObject.type_of
       (Registry.register "Cone" BaseObject_type ∅) sphere ∅ cone_store
     = (Raise KeyError, cone_store).
Proof.
  assert (Hne : SceneObject.type_of sphere <> "Cone") by discriminate.
  split; [exact Hne|].
  exact (Registry.register_keeps_other_types SceneObject.type_of ∅ "Cone"
           BaseObject_type sphere ∅ cone_store Hne).
Defined.

Lemma uuid_generated_once_witness :
  "6f1c" <> ""
  /\ SceneObject.uuid
       (SceneObject.uuid cone_object "6f1c").2 "90ab"
     = (SceneObject.VStr "6f1c", (SceneObject.uuid cone_object "6f1c").2).
Proof.
  assert (Hne : "6f1c" <> "") by discriminate.
  split; [exact Hne|].
  exact (proj1 (SceneObject.uuid_generated_once cone_object "6f1c" "90ab"
                  Hne)).
Defined.

(** A second scene object on the same cone, hidden. *)
Definition hidden_cone_object : SceneObject.BaseObject :=
  SceneObject.mkBaseObject cone SceneObject.VNone SceneObject.VNone
    SceneObject.VNone (SceneObject.VBool false).

Lemma name_shared_between_wrappers_witness :
  SceneObject._item cone_object = SceneObject.VObj "Cone" 1
  /\ SceneObject._item hidden_cone_object = SceneObject.VObj "Cone" 1
  /\ cone_store !! 1%positive
     = Some (SceneObject.mkNamedItem (SceneObject.VStr "cone"))
  /\ SceneObject.name SceneObject.plain_get_name hidden_cone_object
       (SceneObject.set_name SceneObject.plain_set_name cone_object
          (SceneObject.VStr "apex") cone_store).2
     = Ok (SceneObject.VStr "apex").
Proof.
  do 3 (split; [reflexivity|]).
  exact (proj2 (SceneObject.name_shared_between_wrappers
                  SceneObject.plain_get_name SceneObject.plain_set_name
                  cone_object hidden_cone_object (SceneObject.VStr "apex")
                  cone_store "Cone" 1%positive
                  (SceneObject.mkNamedItem (SceneObject.VStr "cone"))
                  eq_refl eq_refl eq_refl)).
Defined.

Lemma new_assigns_item_name_witness :
  cone_store !! 1%positive
  = Some (SceneObject.mkNamedItem (SceneObject.VStr "cone"))
  /\ map_Forall (fun k _ => k ∈ SceneObject.init_keywords)
       (∅ : gmap string SceneObject.value)
  /\ (BaseObject_type cone ∅ cone_store).2 !! 1%positive
     = Some (SceneObject.mkNamedItem SceneObject.VNone).
Proof.
  assert (Hkw : map_Forall (fun k _ => k ∈ SceneObject.init_keywords)
                  (∅ : gmap string SceneObject.value)).
  { apply map_Forall_empty. }
  split; [reflexivity|]. split; [exact Hkw|].
  unfold BaseObject_type, cone.
  rewrite (SceneObject.new_assigns_item_name SceneObject.plain_set_name
             "Cone" 1%positive
             (SceneObject.mkNamedItem (SceneObject.VStr "cone"))
             ∅ cone_store eq_refl Hkw).
  reflexivity.
Defined.

Lemma new_failures_witness :
  (forall cls l, SceneObject.VNone <> SceneObject.VObj cls l)
  /\ BaseObject_type SceneObject.VNone ∅ cone_store
     = (Raise AttributeError, cone_store).
Proof.
  assert (Hno : forall cls l, SceneObject.VNone <> SceneObject.VObj cls l).
  { intros cls l. discriminate. }
  split; [exact Hno|].
  apply (proj1 (SceneObject.new_failures SceneObject.plain_set_name
                  SceneObject.VNone ∅ cone_store Hno)).
  apply map_Forall_empty.
Defined.

(** *** More instances: shape objects *)

(** The origin, drawn; with one translation assigned and updated; and
    after [synchronize]. *)
Definition drawn_world : point_world :=
  Eval vm_compute in (point_run [ShapeObject.CDraw] origin_world).2.

Definition batched_world : point_world :=
  Eval vm_compute in
    (point_run [ShapeObject.CSetMatrix (translation 1 2 3);
                ShapeObject.CUpdate] drawn_world).2.

Definition synchronized_world : point_world :=
  Eval vm_compute in (point_run [ShapeObject.CSynchronize] batched_world).2.

(** The origin, not visible. *)
Definition hidden_world : point_world :=
  ShapeObject.mkWorld (ShapeObject.init false) [0; 0; 0; 1]%Z ∅.

Lemma draw_invisible_witness :
  ShapeObject.visible (ShapeObject.self hidden_world) = false
  /\ ShapeObject._guid
       (ShapeObject.self (ShapeObject.draw point_artist_draw hidden_world))
     = None.
Proof.
  split; [reflexivity|].
  exact (proj1 (proj2 (ShapeObject.draw_invisible transform_point
                         point_artist_draw hidden_world eq_refl))).
Defined.

Lemma updates_then_synchronize_witness :
  ShapeObject._stack (ShapeObject.self drawn_world) = ShapeObject.Deque []
  /\ ShapeObject._guid (ShapeObject.self drawn_world) = Some 1%positive
  /\ ShapeObject.doc drawn_world !! 1%positive = Some [0; 0; 0; 1]%Z
  /\ exists w,
       point_run [ShapeObject.CSetMatrix (translation 1 2 3);
                  ShapeObject.CUpdate;
                  ShapeObject.CSetMatrix (translation 10 0 0);
                  ShapeObject.CUpdate;
                  ShapeObject.CSynchronize] drawn_world = (Ok tt, w)
       /\ ShapeObject._stack (ShapeObject.self w) = ShapeObject.PyList [].
Proof.
  do 3 (split; [reflexivity|]).
  destruct (ShapeObject.updates_then_synchronize multiply getitem identity
              setitem id transform_point transform_point point_artist_draw
              (translation 1 2 3) [translation 10 0 0] drawn_world
              1%positive [0; 0; 0; 1]%Z eq_refl eq_refl eq_refl)
    as (w & T & l & Hrun & _ & _ & Hs).
  exists w. split; [exact Hrun|exact Hs].
Defined.

Lemma failed_update_is_batched_witness :
  ShapeObject._stack (ShapeObject.self origin_world) = ShapeObject.Deque []
  /\ ShapeObject.Find (ShapeObject._guid (ShapeObject.self origin_world))
       (ShapeObject.doc origin_world) = None
  /\ exists w,
       point_run [ShapeObject.CSetMatrix (translation 1 2 3);
                  ShapeObject.CUpdate] origin_world
       = (Raise AttributeError, w)
       /\ ShapeObject._stack (ShapeObject.self w)
          = ShapeObject.Deque [translation 1 2 3].
Proof.
  do 2 (split; [reflexivity|]).
  destruct (ShapeObject.failed_update_is_batched multiply getitem identity
              setitem id transform_point transform_point point_artist_draw
              origin_world (translation 1 2 3) eq_refl eq_refl)
    as (w & Hstep & Hs & _).
  exists w. split; [|exact Hs].
  rewrite <- Hstep. reflexivity.
Defined.

Lemma synchronize_only_once_witness :
  ShapeObject.synchronize multiply getitem identity setitem transform_point
    batched_world = (Ok tt, synchronized_world)
  /\ ShapeObject.synchronize multiply getitem identity setitem
       transform_point
       (ShapeObject.after multiply getitem identity setitem id
          transform_point transform_point point_artist_draw
          [ShapeObject.CSetMatrix (translation 10 0 0); ShapeObject.CDraw]
          synchronized_world)
     = (Raise TypeError,
        ShapeObject.after multiply getitem identity setitem id
          transform_point transform_point point_artist_draw
          [ShapeObject.CSetMatrix (translation 10 0 0); ShapeObject.CDraw]
          synchronized_world).
Proof.
  assert (Hs : ShapeObject.synchronize multiply getitem identity setitem
                 transform_point batched_world = (Ok tt, synchronized_world))
    by reflexivity.
  split; [exact Hs|].
  exact (proj2 (ShapeObject.synchronize_only_once multiply getitem identity
                  setitem id transform_point transform_point
                  point_artist_draw batched_world synchronized_world
                  [ShapeObject.CSetMatrix (translation 10 0 0);
                   ShapeObject.CDraw] Hs)).
Defined.

Lemma update_keeps_matrix_pending_witness :
  ShapeObject._matrix (ShapeObject.self batched_world)
  = Some (translation 1 2 3)
  /\ ShapeObject._stack (ShapeObject.self batched_world)
     = ShapeObject.Deque [translation 1 2 3]
  /\ ShapeObject._guid (ShapeObject.self batched_world) = Some 1%positive
  /\ ShapeObject.doc batched_world !! 1%positive = Some [1; 2; 3; 1]%Z
  /\ exists w,
       point_run [ShapeObject.CUpdate; ShapeObject.CUpdate] batched_world
       = (Ok tt, w)
       /\ ShapeObject.doc w !! 1%positive = Some [3; 6; 9; 1]%Z.
Proof.
  do 4 (split; [reflexivity|]).
  destruct (ShapeObject.update_keeps_matrix_pending multiply getitem identity
              setitem id transform_point transform_point point_artist_draw
              2 batched_world (translation 1 2 3) [translation 1 2 3]
              1%positive [1; 2; 3; 1]%Z eq_refl eq_refl eq_refl eq_refl)
    as (w & Hrun & _ & _ & _ & Hd & _).
  exists w. split; [exact Hrun|exact Hd].
Defined.

(** Matrices as functions of the two indices. *)
Definition entries := nat -> nat -> Z.

Definition entries_setitem (i j : nat) (v : Z) (M : entries) : entries :=
  fun i' j' => if decide ((i, j) = (i', j')) then v else M i' j'.

Definition entries_identity : entries :=
  fun i j => if decide (i = j) then 1%Z else 0%Z.

Lemma entries_same (i j : nat) (v : Z) (M : entries) :
  entries_setitem i j v M i j = v.
Proof. unfold entries_setitem. rewrite decide_True; reflexivity. Defined.

Lemma entries_other (i j i' j' : nat) (v : Z) (M : entries) :
  (i, j) <> (i', j') -> entries_setitem i j v M i' j' = M i' j'.
Proof.
  intros Hne. unfold entries_setitem. rewrite decide_False; [reflexivity|].
  exact Hne.
Defined.

Lemma copy_entries_copies_witness :
  2 < 4 /\ 3 < 4
  /\ ShapeObject.copy_entries getitem entries_identity entries_setitem
       (translation 1 2 3) 2 3 = 3%Z.
Proof.
  assert (H2 : 2 < 4) by lia. assert (H3 : 3 < 4) by lia.
  split; [exact H2|]. split; [exact H3|].
  exact (ShapeObject.copy_entries_copies getitem entries_identity
           entries_setitem (fun M : entries => M) entries_same entries_other
           (translation 1 2 3) 2 3 H2 H3).
Defined.

(** *** More instances: bounding boxes *)

Lemma Zltb_total (x y : Z) :
  (x <? y)%Z = false -> (y <? x)%Z = false -> x = y.
Proof. rewrite !Z.ltb_ge. intros H1 H2. apply Z.le_antisymm; assumption. Defined.

Lemma bounding_box_xy_is_flat_bottom_witness :
  three_points <> []
  /\ Forall (fun p => length p = 3) three_points
  /\ exists box,
       BBox.bounding_box Z.ltb three_points = Ok box
       /\ BBox.bounding_box_xy Z.ltb 0%Z three_points
          = Ok ((fun c => take 2 c ++ [0%Z]) <$> take 4 box).
Proof.
  assert (Hne : three_points <> []) by discriminate.
  assert (H3 : Forall (fun p => length p = 3) three_points).
  { repeat constructor. }
  split; [exact Hne|]. split; [exact H3|].
  exact (BBox.bounding_box_xy_is_flat_bottom Z.ltb 0%Z three_points Hne H3).
Defined.

Lemma bounding_box_permutation_witness :
  three_points <> []
  /\ Forall (fun p => length p = 3) three_points
  /\ three_points ≡ₚ [[4; 4; 4]; [0; 5; 2]; [1; -2; 3]]%Z
  /\ BBox.bounding_box Z.ltb [[4; 4; 4]; [0; 5; 2]; [1; -2; 3]]%Z
     = BBox.bounding_box Z.ltb three_points.
Proof.
  assert (Hne : three_points <> []) by discriminate.
  assert (H3 : Forall (fun p => length p = 3) three_points).
  { repeat constructor. }
  assert (HP : three_points ≡ₚ [[4; 4; 4]; [0; 5; 2]; [1; -2; 3]]%Z).
  { unfold three_points.
    apply (Permutation_cons_app [[4; 4; 4]]%Z [[1; -2; 3]]%Z).
    apply perm_swap. }
  split; [exact Hne|]. split; [exact H3|]. split; [exact HP|].
  exact (BBox.bounding_box_permutation Z.ltb Zltb_irrefl Zltb_trans
           Zltb_total three_points _ Hne H3 HP).
Defined.

Definition three_points_box : list (list Z) :=
  Eval vm_compute in
    match BBox.bounding_box Z.ltb three_points with
    | Ok box => box
    | Raise _ => []
    end.

Lemma bounding_box_idempotent_witness :
  Forall (fun p => length p = 3) three_points
  /\ BBox.bounding_box Z.ltb three_points = Ok three_points_box
  /\ BBox.bounding_box Z.ltb three_points_box = Ok three_points_box.
Proof.
  assert (H3 : Forall (fun p => length p = 3) three_points).
  { repeat constructor. }
  split; [exact H3|]. split; [reflexivity|].
  exact (BBox.bounding_box_idempotent Z.ltb Zltb_irrefl Zltb_trans
           Zltb_total three_points three_points_box H3 eq_refl).
Defined.

Lemma bounding_box_interior_point_witness :
  Forall (fun p => length p = 3) three_points
  /\ BBox.inside Z.ltb [0; -2; 2]%Z [4; 5; 4]%Z [2; 0; 3]%Z
  /\ BBox.bounding_box Z.ltb (three_points ++ [[2; 0; 3]%Z])
     = Ok three_points_box.
Proof.
  assert (H3 : Forall (fun p => length p = 3) three_points).
  { repeat constructor. }
  assert (Hin : BBox.inside Z.ltb [0; -2; 2]%Z [4; 5; 4]%Z [2; 0; 3]%Z).
  { split; repeat constructor. }
  split; [exact H3|]. split; [exact Hin|].
  exact (BBox.bounding_box_interior_point Z.ltb Zltb_irrefl Zltb_trans
           Zltb_total three_points three_points_box [0; -2; 2]%Z
           [4; 5; 4]%Z [2; 0; 3]%Z H3 eq_refl eq_refl eq_refl eq_refl Hin).
Defined.

(** *** More instances: the color ramp in hundredths *)

Lemma Zeqb_not_ltb (x y : Z) :
  (x =? y)%Z = true -> (x <? y)%Z = false /\ (y <? x)%Z = false.
Proof. rewrite Z.eqb_eq, !Z.ltb_ge. intros ->. split; reflexivity. Defined.

Lemma from_i_out_of_range_is_black_witness :
  ((-5 <? 0)%Z = true \/ (100 <? -5)%Z = true)
  /\ Color.from_i Z.eqb Z.ltb Z.add Z.sub Z.mul Z.div id
       0%Z 4%Z 255%Z 0%Z 25%Z 50%Z 75%Z 100%Z 255%Z (-5)%Z
     = Color.mkColor 0%Z 0%Z 0%Z 100%Z.
Proof.
  assert (Hout : (-5 <? 0)%Z = true \/ (100 <? -5)%Z = true)
    by (left; reflexivity).
  split; [exact Hout|].
  exact (Color.from_i_out_of_range_is_black Z.eqb Z.ltb Z.add Z.sub Z.mul
           Z.div id 0%Z 4%Z 255%Z 0%Z 25%Z 50%Z 75%Z 100%Z 255%Z
           Zeqb_not_ltb Zltb_irrefl Zltb_trans eq_refl eq_refl eq_refl
           eq_refl (-5)%Z Hout).
Defined.

Lemma adjustments_are_clamped_witness :
  (forall x : Z, (x <? x)%Z = false)
  /\ exists l',
       (100 <? l')%Z = false
       /\ same_triple 100%Z l' 0%Z
          = Ok (Color.rgb
                  (Color.lighten Z.ltb Z.add Z.mul Z.div 0%Z 100%Z 100%Z
                     same_triple same_triple
                     (Color.mkColor 100%Z 0%Z 0%Z 100%Z) 50%Z).2).
Proof.
  split; [exact Zltb_irrefl|].
  destruct (proj1 (Color.adjustments_are_clamped Z.ltb Z.add Z.sub Z.mul
                     Z.div 0%Z 100%Z 0%Z 100%Z same_triple same_triple
                     (Color.mkColor 100%Z 0%Z 0%Z 100%Z)
                     (Color.lighten Z.ltb Z.add Z.mul Z.div 0%Z 100%Z 100%Z
                        same_triple same_triple
                        (Color.mkColor 100%Z 0%Z 0%Z 100%Z) 50%Z).2
                     50%Z Zltb_irrefl Zltb_trans) eq_refl)
    as (h & l & s & l' & Hhls & Hle & Hrgb).
  injection Hhls as <- <- <-.
  exists l'. split; [exact Hle|exact Hrgb].
Defined.

End Instances.
